(** * BookingModal: the booking dialog of SkillXChange

    A shallow embedding of [src/components/booking/BookingModal.tsx].

    The component owns five pieces of React state and two asynchronous
    operations, [loadAvailableSlots] and [bookSlot].  Both are [async]
    functions: they run synchronously up to an [await], are suspended while
    the remote call is outstanding and are resumed with its settlement.  They
    are embedded as terms of a small free monad [async] whose nodes are the
    synchronous effects of the component (state setters, console output, the
    completion callback) and its suspension points.  Two semantics are given:
    [run], which plays one invocation to its end against a backend, and
    [dispatch], the event loop in which several invocations are suspended at
    once and are resumed in any order.  [stretches] gives what one
    invocation does by itself, from one suspension to the next, whatever the
    state it finds and whatever is interleaved with it. *)

From Stdlib Require Import String List Bool Arith ZArith Lia.
Import ListNotations.
Open Scope string_scope.
Open Scope list_scope.

Set Implicit Arguments.

(** ** JavaScript values and truthiness *)

Inductive jsval : Type :=
| JUndefined
| JNull
| JBool (b : bool)
| JNum (n : Z)
| JStr (s : string)
| JObject.   (* any object or array *)

(** [if (v)], [!v] and [v || w] test truthiness. *)
Definition truthy (v : jsval) : bool :=
  match v with
  | JUndefined | JNull => false
  | JBool b => b
  | JNum n => negb (Z.eqb n 0)
  | JStr s => negb (String.eqb s "")
  | JObject => true
  end.

(** An object that can be thrown: an [Error], or the error object of a
    backend response.  Only its [message] is ever read, and only for its
    truthiness and its text: an object without a message counts as one
    with the empty message. *)
Record JsError : Type := Error { message : string }.

(** A value that is thrown, or that a promise is rejected with.  Of [null]
    and [undefined] no property can be read: [err.message] throws a
    [TypeError] there.  Every other value is an [Obj]: reading its
    [message] succeeds. *)
Inductive thrown : Type :=
| Obj (e : JsError)
| Nullish.

Coercion Obj : JsError >-> thrown.

(** What reading a property of [null] or [undefined] throws.  Nothing
    reads the message of this error: it escapes the [catch] block. *)
Definition TypeError : thrown :=
  Obj (Error "Cannot read properties of null (reading 'message')").

(** [s || fallback] on strings: the empty string is falsy. *)
Definition str_or (s fallback : string) : string :=
  if String.eqb s "" then fallback else s.

(** ** Data model *)

Module TimeSlot.
Record t : Type := mk { id : string; start_time : string; end_time : string }.
End TimeSlot.

Module User.
Record t : Type := mk { id : string }.
End User.

Module Profile.
Record t : Type := mk { email : string; full_name : string }.
End Profile.

(** The five [useState] cells of the component. *)
Record State : Type := mkState {
  slots : list TimeSlot.t;
  loading : bool;
  bookingInProgress : bool;
  bookingSlotId : option string;
  error : string
}.

(** State on mount: the initial values given to [useState]. *)
Definition initialState : State :=
  {| slots := []; loading := true; bookingInProgress := false;
     bookingSlotId := None; error := "" |}.

(** ** The backend client *)

(** A query as the builder chain [from(..).select(..).eq(..)...] leaves it. *)
Inductive condition : Type :=
| FEq (column : string) (value : jsval)
| FGte (column : string) (value : jsval).

Record Query : Type := mkQuery {
  table : string;
  columns : string;
  filters : list condition;
  ordering : option (string * bool)   (* column, ascending *)
}.

Module Builder.

Definition from (t : string) : Query :=
{| table := t; columns := ""; filters := []; ordering := None |}.

Definition select (cols : string) (q : Query) : Query :=
{| table := table q; columns := cols; filters := filters q;
   ordering := ordering q |}.

Definition eq (column : string) (value : jsval) (q : Query) : Query :=
{| table := table q; columns := columns q;
   filters := filters q ++ [FEq column value]; ordering := ordering q |}.

Definition gte (column : string) (value : jsval) (q : Query) : Query :=
{| table := table q; columns := columns q;
   filters := filters q ++ [FGte column value]; ordering := ordering q |}.

Definition order (column : string) (ascending : bool) (q : Query) : Query :=
{| table := table q; columns := columns q; filters := filters q;
   ordering := Some (column, ascending) |}.

End Builder.

(** Method chaining. *)
Notation "q |> f" := (f q) (at level 45, left associativity, only parsing).

(** Arguments of the [book_time_slot] procedure. *)
Record BookArgs : Type := mkBookArgs {
  p_slot_id : string;
  p_student_id : string;
  p_mentor_id : string
}.

(** Argument of [sendBookingEmails]. *)
Record EmailParams : Type := mkEmailParams {
  student_email : string;
  mentor_email : string;
  email_start_time : string;
  mentor_name : string;
  student_name : string;
  gig_title : string
}.

(** The remote calls the component makes. *)
Inductive call : Type :=
| AuthGetUser                                   (* supabase.auth.getUser() *)
| Rpc (fn : string) (args : BookArgs)           (* supabase.rpc(fn, args) *)
| Select (q : Query)                            (* awaiting a query builder *)
| SelectSingle (q : Query)                      (* builder.single() *)
| SendBookingEmails (p : EmailParams).          (* utils/email *)

(** What each call resolves to: the [{ data, error }] objects of the client
    and the [{ success, error }] object of the mailer. *)
Record AuthResponse : Type := mkAuth { auth_user : option User.t }.
Record RpcResponse : Type :=
  mkRpc { rpc_data : jsval; rpc_error : option JsError }.
Record RowsResponse : Type :=
  mkRows { rows_data : option (list TimeSlot.t); rows_error : option JsError }.
Record SingleResponse : Type :=
  mkSingle { single_data : option Profile.t; single_error : option JsError }.
Record EmailResult : Type :=
  mkEmailResult { success : bool; email_error : jsval }.

Definition response (c : call) : Type :=
  match c with
  | AuthGetUser => AuthResponse
  | Rpc _ _ => RpcResponse
  | Select _ => RowsResponse
  | SelectSingle _ => SingleResponse
  | SendBookingEmails _ => EmailResult
  end.

(** A promise settles: it is fulfilled with a value or rejected. *)
Inductive settled (A : Type) : Type :=
| Fulfilled (a : A)
| Rejected (reason : thrown).
Arguments Rejected {A} reason.

(** [Promise.all] of two promises: fulfilled when both are, rejected with
    the reason of the one that is rejected first in time.  [inOrder] says
    that the first promise settles before the second. *)
Definition all2 {A B : Type} (inOrder : bool)
  (s1 : settled A) (s2 : settled B) : settled (A * B) :=
  match s1, s2 with
  | Fulfilled a, Fulfilled b => Fulfilled (a, b)
  | Rejected e, Fulfilled _ => Rejected e
  | Fulfilled _, Rejected e => Rejected e
  | Rejected e1, Rejected e2 => Rejected (if inOrder then e1 else e2)
  end.

(** ** Synchronous effects *)

Inductive action : Type :=
| SetSlots (l : list TimeSlot.t)
| SetLoading (b : bool)
| SetBookingInProgress (b : bool)
| SetBookingSlotId (o : option string)
| SetError (s : string)
| ConsoleError (label : string) (payload : thrown)
| ConsoleWarn (label : string) (payload : jsval)
| OnBookingComplete.

(** ** Asynchronous functions *)

Inductive async (R : Type) : Type :=
| Ret (r : R)
| Throw (e : thrown)
| Act (a : action) (k : async R)
| Await (c : call) (k : settled (response c) -> async R)
| AwaitAll (c1 c2 : call)
           (k : settled (response c1 * response c2) -> async R).
Arguments Throw {R} e.

Fixpoint bind {A B : Type} (p : async A) (f : A -> async B) : async B :=
  match p with
  | Ret r => f r
  | Throw e => Throw e
  | Act a k => Act a (bind k f)
  | Await c k => Await c (fun r => bind (k r) f)
  | AwaitAll c1 c2 k => AwaitAll c1 c2 (fun r => bind (k r) f)
  end.

Declare Scope async_scope.
Delimit Scope async_scope with async.
Notation "x <- p ;; q" := (bind p (fun x => q))
  (at level 61, p at next level, right associativity) : async_scope.
Notation "p ;; q" := (bind p (fun _ => q))
  (at level 61, right associativity) : async_scope.
Open Scope async_scope.

Definition act (a : action) : async unit := Act a (Ret tt).

(** [await p]: a rejected promise is thrown at the [await]. *)
Definition resume {A : Type} (s : settled A) : async A :=
  match s with
  | Fulfilled a => Ret a
  | Rejected e => Throw e
  end.

Definition await (c : call) : async (response c) := Await c resume.

Definition await_all (c1 c2 : call) : async (response c1 * response c2) :=
  AwaitAll c1 c2 resume.

(** [try { p } catch (e) { h e }] *)
Fixpoint tryCatch {R : Type} (p : async R) (h : thrown -> async R)
  : async R :=
  match p with
  | Ret r => Ret r
  | Throw e => h e
  | Act a k => Act a (tryCatch k h)
  | Await c k => Await c (fun r => tryCatch (k r) h)
  | AwaitAll c1 c2 k => AwaitAll c1 c2 (fun r => tryCatch (k r) h)
  end.

(** [try { p } finally { f }] *)
Fixpoint tryFinally {R : Type} (p : async R) (f : async unit) : async R :=
  match p with
  | Ret r => f ;; Ret r
  | Throw e => f ;; Throw e
  | Act a k => Act a (tryFinally k f)
  | Await c k => Await c (fun r => tryFinally (k r) f)
  | AwaitAll c1 c2 k => AwaitAll c1 c2 (fun r => tryFinally (k r) f)
  end.

Notation "'try' p 'catch' h 'finally' f" := (tryFinally (tryCatch p h) f)
  (at level 10, p at level 200, h at level 200, f at level 200,
   only parsing) : async_scope.

(** [err.message], for [err] of type [any]. *)
Definition message_of (err : thrown) : async string :=
  match err with
  | Obj e => Ret (message e)
  | Nullish => Throw TypeError
  end.

(** ** The two operations of the component *)

Section Component.

(** Props: [mentorId], [gigTitle] and [onBookingComplete].  Of the
    callback the component sees that it was called, the effect
    [OnBookingComplete], and how the call came back: it returned, or it
    threw. *)
Variable mentorId : string.
Variable gigTitle : string.
Variable onBookingComplete : settled unit.

(** [now] is [new Date().toISOString()], read when the query is built. *)
Definition slotQuery (now : string) : Query :=
  Builder.from "time_slots"
    |> Builder.select "*"
    |> Builder.eq "mentor_id" (JStr mentorId)
    |> Builder.eq "is_booked" (JBool false)
    |> Builder.gte "start_time" (JStr now)
    |> Builder.order "start_time" true.

Definition loadAvailableSlots_try (now : string) : async unit :=
  r <- await (Select (slotQuery now)) ;;
  match rows_error r with
  | Some error => Throw error
  | None =>
      act (SetSlots (match rows_data r with Some d => d | None => [] end))
  end.

Definition loadAvailableSlots (now : string) : async unit :=
  try loadAvailableSlots_try now
  catch (fun error =>
    act (ConsoleError "Error loading slots:" error) ;;
    act (SetError "Failed to load available time slots"))
  finally act (SetLoading false).

Definition studentQuery (user : User.t) : Query :=
  Builder.from "profiles"
    |> Builder.select "email, full_name"
    |> Builder.eq "id" (JStr (User.id user)).

Definition mentorQuery : Query :=
  Builder.from "mentor_profiles"
    |> Builder.select "email, full_name"
    |> Builder.eq "id" (JStr mentorId).

Definition bookSlot_try (slotId startTime : string) : async unit :=
  r <- await AuthGetUser ;;
  match auth_user r with
  | None => Throw (Error "Not authenticated")
  | Some user =>
      r <- await (Rpc "book_time_slot"
                    {| p_slot_id := slotId;
                       p_student_id := User.id user;
                       p_mentor_id := mentorId |}) ;;
      match rpc_error r with
      | Some bookingError => Throw bookingError
      | None =>
          if negb (truthy (rpc_data r))
          then Throw (Error "Failed to book the slot")
          else
            ps <- await_all (SelectSingle (studentQuery user))
                            (SelectSingle mentorQuery) ;;
            match single_data (fst ps), single_data (snd ps) with
            | Some studentProfile, Some mentorProfile =>
                emailResult <- await (SendBookingEmails
                  {| student_email := Profile.email studentProfile;
                     mentor_email := Profile.email mentorProfile;
                     email_start_time := startTime;
                     mentor_name := Profile.full_name mentorProfile;
                     student_name := Profile.full_name studentProfile;
                     gig_title := gigTitle |}) ;;
                (if negb (success emailResult)
                 then act (ConsoleWarn
                             "Emails may not have been sent successfully:"
                             (email_error emailResult))
                 else Ret tt) ;;
                act OnBookingComplete ;;
                resume onBookingComplete
            | _, _ => Throw (Error "Could not fetch user profiles")
            end
      end
  end.

Definition bookSlot (slotId startTime : string) : async unit :=
  act (SetBookingSlotId (Some slotId)) ;;
  act (SetBookingInProgress true) ;;
  act (SetError "") ;;
  (try bookSlot_try slotId startTime
   catch (fun err =>
     act (ConsoleError "Booking error:" err) ;;
     message <- message_of err ;;
     act (SetError
            (str_or message
                    "Failed to book the session. Please try again.")))
   finally (act (SetBookingInProgress false) ;;
            act (SetBookingSlotId None))).

End Component.

(** ** The world an invocation acts on *)

Inductive logEntry : Type :=
| LogError (label : string) (payload : thrown)
| LogWarn (label : string) (payload : jsval).

(** Everything observable, in the order it happened. *)
Inductive event : Type :=
| Did (a : action)
| Issued (c : call).

Record World : Type := mkWorld {
  st : State;                (* the component's state cells *)
  console : list logEntry;   (* console.error / console.warn output *)
  completions : nat;         (* invocations of onBookingComplete *)
  history : list event       (* effects and remote calls so far *)
}.

Definition initialWorld : World :=
  {| st := initialState; console := []; completions := 0; history := [] |}.

Definition setState (a : action) (s : State) : State :=
  match a with
  | SetSlots l =>
      {| slots := l; loading := loading s;
         bookingInProgress := bookingInProgress s;
         bookingSlotId := bookingSlotId s; error := error s |}
  | SetLoading b =>
      {| slots := slots s; loading := b;
         bookingInProgress := bookingInProgress s;
         bookingSlotId := bookingSlotId s; error := error s |}
  | SetBookingInProgress b =>
      {| slots := slots s; loading := loading s;
         bookingInProgress := b;
         bookingSlotId := bookingSlotId s; error := error s |}
  | SetBookingSlotId o =>
      {| slots := slots s; loading := loading s;
         bookingInProgress := bookingInProgress s;
         bookingSlotId := o; error := error s |}
  | SetError e =>
      {| slots := slots s; loading := loading s;
         bookingInProgress := bookingInProgress s;
         bookingSlotId := bookingSlotId s; error := e |}
  | ConsoleError _ _ | ConsoleWarn _ _ | OnBookingComplete => s
  end.

Definition logged (a : action) : list logEntry :=
  match a with
  | ConsoleError l p => [LogError l p]
  | ConsoleWarn l p => [LogWarn l p]
  | _ => []
  end.

Definition completed (a : action) : nat :=
  match a with
  | OnBookingComplete => 1
  | _ => 0
  end.

Definition perform (a : action) (w : World) : World :=
  {| st := setState a (st w);
     console := console w ++ logged a;
     completions := completions w + completed a;
     history := history w ++ [Did a] |}.

Definition issue (c : call) (w : World) : World :=
  {| st := st w; console := console w; completions := completions w;
     history := history w ++ [Issued c] |}.

(** The booking procedure calls recorded in a history. *)
Fixpoint issued_rpcs (h : list event) : list (string * BookArgs) :=
  match h with
  | [] => []
  | Issued (Rpc fn args) :: h' => (fn, args) :: issued_rpcs h'
  | _ :: h' => issued_rpcs h'
  end.

(** ** One invocation, played to its end *)

(** The collaborators: what each remote call settles to, and whether of the
    two profile fetches the student's settles first. *)
Record Backend : Type := mkBackend {
  getUser : settled AuthResponse;
  rpc : string -> BookArgs -> settled RpcResponse;
  selectRows : Query -> settled RowsResponse;
  selectSingle : Query -> settled SingleResponse;
  sendBookingEmails : EmailParams -> settled EmailResult;
  studentFirst : bool
}.

Definition answer (b : Backend) (c : call) : settled (response c) :=
  match c return settled (response c) with
  | AuthGetUser => getUser b
  | Rpc fn args => rpc b fn args
  | Select q => selectRows b q
  | SelectSingle q => selectSingle b q
  | SendBookingEmails p => sendBookingEmails b p
  end.

(** How the promise of an [async] function settles. *)
Inductive outcome (R : Type) : Type :=
| Returned (r : R)
| Thrown (e : thrown).
Arguments Thrown {R} e.

Fixpoint run (b : Backend) {R : Type} (p : async R) (w : World)
  : World * outcome R :=
  match p with
  | Ret r => (w, Returned r)
  | Throw e => (w, Thrown e)
  | Act a k => run b k (perform a w)
  | Await c k => run b (k (answer b c)) (issue c w)
  | AwaitAll c1 c2 k =>
      run b (k (all2 (studentFirst b) (answer b c1) (answer b c2)))
          (issue c2 (issue c1 w))
  end.

(** ** Presentation *)

Record Row : Type := mkRow {
  key : string;
  startTime : string;
  endTime : string;
  isLoading : bool
}.

Inductive Body : Type :=
| Message (text : string)
| SlotList (rows : list Row).

Record View : Type := mkView {
  banner : option string;   (* the red error box *)
  body : Body
}.

Definition optEqb (o : option string) (s : string) : bool :=
  match o with
  | Some x => String.eqb x s
  | None => false
  end.

Definition renderRow (s : State) (slot : TimeSlot.t) : Row :=
  {| key := TimeSlot.id slot;
     startTime := TimeSlot.start_time slot;
     endTime := TimeSlot.end_time slot;
     isLoading := bookingInProgress s
                  && optEqb (bookingSlotId s) (TimeSlot.id slot) |}.

Definition render (s : State) : View :=
  {| banner := if String.eqb (error s) "" then None else Some (error s);
     body := if loading s then Message "Loading available slots..."
             else if Nat.eqb (length (slots s)) 0
                  then Message "No available time slots"
                  else SlotList (map (renderRow s) (slots s)) |}.

(** ** The event loop: several invocations suspended at once *)

(** An invocation parked at an [await], with the rest of the function.  At
    a [Promise.all] it holds what either promise has been fulfilled with so
    far. *)
Inductive suspended : Type :=
| OnOne (c : call) (k : settled (response c) -> async unit)
| OnAll (c1 c2 : call)
        (got1 : option (response c1)) (got2 : option (response c2))
        (k : settled (response c1 * response c2) -> async unit).

(** Runs the synchronous stretch of [p]: up to its next [await], or to its
    end.  Nothing awaits the promise of [loadAvailableSlots] or [bookSlot], so
    its settlement is dropped. *)
Fixpoint advance (p : async unit) (w : World) : World * option suspended :=
  match p with
  | Ret _ | Throw _ => (w, None)
  | Act a k => advance k (perform a w)
  | Await c k => (issue c w, Some (OnOne c k))
  | AwaitAll c1 c2 k =>
      (issue c2 (issue c1 w), Some (OnAll c1 c2 None None k))
  end.

(** Which function a parked invocation belongs to. *)
Inductive origin : Type :=
| FromLoad
| FromBook (slotId : string).

Record task : Type := mkTask { source : origin; parked : suspended }.

(** A settlement arriving from outside, of any of the response shapes. *)
Inductive settlement : Type :=
| OfAuth (s : settled AuthResponse)
| OfRpc (s : settled RpcResponse)
| OfRows (s : settled RowsResponse)
| OfSingle (s : settled SingleResponse)
| OfEmail (s : settled EmailResult).

Definition deliver (c : call) (x : settlement)
  : option (settled (response c)) :=
  match c return option (settled (response c)) with
  | AuthGetUser => match x with OfAuth s => Some s | _ => None end
  | Rpc _ _ => match x with OfRpc s => Some s | _ => None end
  | Select _ => match x with OfRows s => Some s | _ => None end
  | SelectSingle _ => match x with OfSingle s => Some s | _ => None end
  | SendBookingEmails _ => match x with OfEmail s => Some s | _ => None end
  end.

(** The continuation of an invocation parked on one call, once that has
    settled; [None] when the settlement does not fit the call awaited. *)
Definition feed (t : suspended) (xs : list settlement)
  : option (async unit) :=
  match t, xs with
  | OnOne c k, [x] => option_map k (deliver c x)
  | _, _ => None
  end.

(** What a settlement does to an invocation parked on a [Promise.all]. *)
Inductive fed : Type :=
| Resumed (p : async unit)   (* the [await] is over *)
| Held (t : suspended).      (* it goes on waiting for the other promise *)

(** One of the two promises of a [Promise.all] settles, the [second] or the
    first.  A rejection ends the [await] at once; a fulfilment ends it when
    the other promise is fulfilled already. *)
Definition feedMember (t : suspended) (second : bool) (x : settlement)
  : option fed :=
  match t with
  | OnAll c1 c2 got1 got2 k =>
      if second then
        match got2, deliver c2 x with
        | None, Some (Fulfilled v2) =>
            Some match got1 with
                 | Some v1 => Resumed (k (Fulfilled (v1, v2)))
                 | None => Held (OnAll c1 c2 None (Some v2) k)
                 end
        | None, Some (Rejected e) => Some (Resumed (k (Rejected e)))
        | _, _ => None
        end
      else
        match got1, deliver c1 x with
        | None, Some (Fulfilled v1) =>
            Some match got2 with
                 | Some v2 => Resumed (k (Fulfilled (v1, v2)))
                 | None => Held (OnAll c1 c2 (Some v1) None k)
                 end
        | None, Some (Rejected e) => Some (Resumed (k (Rejected e)))
        | _, _ => None
        end
  | OnOne _ _ => None
  end.

Module TimeSlotEq.
Definition eqb (a b : TimeSlot.t) : bool :=
  String.eqb (TimeSlot.id a) (TimeSlot.id b)
  && String.eqb (TimeSlot.start_time a) (TimeSlot.start_time b)
  && String.eqb (TimeSlot.end_time a) (TimeSlot.end_time b).
End TimeSlotEq.

Record System : Type := mkSystem {
  mentor : option string;   (* the [mentorId] prop; [None] before mount *)
  world : World;
  pool : list task          (* invocations awaiting a settlement *)
}.

Definition unmounted : System :=
  {| mentor := None; world := initialWorld; pool := [] |}.

Inductive input : Type :=
| Render (mentorId now : string)   (* mount, or a new [mentorId] prop *)
| Click (slot : TimeSlot.t)        (* [onBook] of the row of [slot] *)
| Settle (n : nat) (xs : list settlement)
    (* the call awaited by the [n]th parked invocation settles *)
| SettleMember (n : nat) (second : bool) (x : settlement).
    (* one promise of the [Promise.all] it awaits settles *)

(** The parked invocation an input is a settlement for. *)
Definition settles (i : input) : option nat :=
  match i with
  | Settle n _ | SettleMember n _ _ => Some n
  | Render _ _ | Click _ => None
  end.

Definition spawn (o : origin) (t : option suspended) : list task :=
  match t with
  | Some s => [{| source := o; parked := s |}]
  | None => []
  end.

(** The pool with its [n]th invocation replaced by what became of it. *)
Definition replaceAt (n : nat) (now : list task) (l : list task) : list task :=
  firstn n l ++ now ++ skipn (S n) l.

(** A row exists, and can be clicked, when the slot list is what is shown. *)
Definition shown (s : State) (slot : TimeSlot.t) : bool :=
  negb (loading s) && existsb (TimeSlotEq.eqb slot) (slots s).

Section EventLoop.

Variable gigTitle : string.
Variable onBookingComplete : settled unit.

(** When a click on a row invokes its [onBook].  [TimeSlotButton], which
    decides, is not part of this file; the component hands every row an
    [onBook] that calls [bookSlot] outright. *)
Variable mayBook : State -> bool.

Definition dispatch (i : input) (s : System) : option System :=
  match i with
  | Render m now =>
      (* useEffect(..., [mentorId]) *)
      if optEqb (mentor s) m then None
      else
        let (w, t) := advance (loadAvailableSlots m now) (world s) in
        Some {| mentor := Some m; world := w;
                pool := pool s ++ spawn FromLoad t |}
  | Click slot =>
      match mentor s with
      | Some m =>
          if shown (st (world s)) slot && mayBook (st (world s)) then
            let (w, t) :=
              advance (bookSlot m gigTitle onBookingComplete
                                (TimeSlot.id slot)
                                (TimeSlot.start_time slot)) (world s) in
            Some {| mentor := mentor s; world := w;
                    pool := pool s
                            ++ spawn (FromBook (TimeSlot.id slot)) t |}
          else None
      | None => None
      end
  | Settle n xs =>
      match nth_error (pool s) n with
      | Some t =>
          match feed (parked t) xs with
          | Some p =>
              let (w, t') := advance p (world s) in
              Some {| mentor := mentor s; world := w;
                      pool := replaceAt n (spawn (source t) t')
                                        (pool s) |}
          | None => None
          end
      | None => None
      end
  | SettleMember n second x =>
      match nth_error (pool s) n with
      | Some t =>
          match feedMember (parked t) second x with
          | Some (Resumed p) =>
              let (w, t') := advance p (world s) in
              Some {| mentor := mentor s; world := w;
                      pool := replaceAt n (spawn (source t) t')
                                        (pool s) |}
          | Some (Held t') =>
              Some {| mentor := mentor s; world := world s;
                      pool := replaceAt n (spawn (source t) (Some t'))
                                        (pool s) |}
          | None => None
          end
      | None => None
      end
  end.

Fixpoint exec (inputs : list input) (s : System) : option System :=
  match inputs with
  | [] => Some s
  | i :: rest =>
      match dispatch i s with
      | Some s' => exec rest s'
      | None => None
      end
  end.

Definition reachable (s : System) : Prop :=
  exists inputs, exec inputs unmounted = Some s.

End EventLoop.

(** Every click invokes [onBook]: the component on its own. *)
Definition always (_ : State) : bool := true.

(** A caller that looks at the flag before it books. *)
Definition whenIdle (s : State) : bool := negb (bookingInProgress s).

Definition isBooking (t : task) : bool :=
  match source t with
  | FromBook _ => true
  | FromLoad => false
  end.

Definition awaitsRpc (t : task) : bool :=
  match parked t with
  | OnOne (Rpc _ _) _ => true
  | _ => false
  end.

(** Unresolved invocations of [bookSlot]. *)
Definition bookings_in_flight (s : System) : nat :=
  length (filter isBooking (pool s)).

(** Booking procedure calls issued and not yet settled. *)
Definition rpcs_in_flight (s : System) : nat :=
  length (filter awaitsRpc (pool s)).

(** *** A scenario *)

Definition s1 : TimeSlot.t :=
  TimeSlot.mk "s1" "2025-01-10T10:00Z" "2025-01-10T10:30Z".
Definition s2 : TimeSlot.t :=
  TimeSlot.mk "s2" "2025-01-10T11:00Z" "2025-01-10T11:30Z".
Definition student : User.t := User.mk "u1".

Definition loaded : list input :=
  [ Render "m1" "2025-01-01T00:00Z";
    Settle 0 [OfRows (Fulfilled (mkRows (Some [s1; s2]) None))] ].

Definition signedIn : settlement :=
  OfAuth (Fulfilled (mkAuth (Some student))).

Definition bookingA : list input :=
  loaded ++ [ Click s1; Settle 0 [signedIn] ].

Definition bookingAB : list input :=
  bookingA ++ [ Click s2; Settle 1 [signedIn] ].

(** Where [bookingA] leaves a caller that books only while the flag is
    down: the booking of [s1] awaits the booking procedure. *)
Definition awaitingRpc : System :=
  Eval vm_compute in
    match exec "Algebra" (Fulfilled tt) whenIdle bookingA unmounted with
    | Some s => s
    | None => unmounted
    end.

Definition reloadFails : list input :=
  [ Render "m1" "2025-01-01T00:00Z";
    Settle 0 [OfRows (Fulfilled (mkRows (Some [s1]) None))];
    Render "m2" "2025-01-01T00:05Z";
    Settle 0 [OfRows (Rejected (Error "Failed to fetch"))] ].

Definition studentProfile : Profile.t := Profile.mk "ann@example.org" "Ann".
Definition mentorProfile : Profile.t := Profile.mk "bob@example.org" "Bob".

(** A backend on which everything succeeds, up to the mailer's report. *)
Definition backend (mailed : bool) : Backend :=
  {| getUser := Fulfilled (mkAuth (Some student));
     rpc := fun _ _ => Fulfilled (mkRpc (JBool true) None);
     selectRows := fun _ => Fulfilled (mkRows (Some [s1; s2]) None);
     selectSingle := fun q =>
       Fulfilled (mkSingle (Some (if String.eqb (table q) "profiles"
                                  then studentProfile else mentorProfile))
                           None);
     sendBookingEmails := fun _ =>
       Fulfilled (mkEmailResult mailed
                    (if mailed then JUndefined else JStr "SMTP down"));
     studentFirst := true |}.

(** Nobody is signed in. *)
Definition anonymousBackend : Backend :=
  {| getUser := Fulfilled (mkAuth None);
     rpc := rpc (backend true);
     selectRows := selectRows (backend true);
     selectSingle := selectSingle (backend true);
     sendBookingEmails := sendBookingEmails (backend true);
     studentFirst := true |}.

(** The booking procedure answers [false]: the slot was taken. *)
Definition takenBackend : Backend :=
  {| getUser := getUser (backend true);
     rpc := fun _ _ => Fulfilled (mkRpc (JBool false) None);
     selectRows := selectRows (backend true);
     selectSingle := selectSingle (backend true);
     sendBookingEmails := sendBookingEmails (backend true);
     studentFirst := true |}.

(** The slot query is answered by [r]. *)
Definition slotsBackend (r : settled RowsResponse) : Backend :=
  {| getUser := getUser (backend true);
     rpc := rpc (backend true);
     selectRows := fun _ => r;
     selectSingle := selectSingle (backend true);
     sendBookingEmails := sendBookingEmails (backend true);
     studentFirst := true |}.

(** ** Vocabulary of the statements *)

(** The state writes at the head of [bookSlot], before its [try]. *)
Definition entered (slotId : string) (w : World) : World :=
  perform (SetError "")
    (perform (SetBookingInProgress true)
       (perform (SetBookingSlotId (Some slotId)) w)).

(** The [catch] block of [bookSlot]: it logs, and shows what it can read
    of the thrown value. *)
Definition reported (err : thrown) (w : World) : World :=
  match err with
  | Obj e =>
      perform (SetError
                 (str_or (message e)
                         "Failed to book the session. Please try again."))
        (perform (ConsoleError "Booking error:" err) w)
  | Nullish => perform (ConsoleError "Booking error:" err) w
  end.

(** How the promise of [bookSlot] settles when its [try] block threw. *)
Definition rethrown (err : thrown) : outcome unit :=
  match err with
  | Obj _ => Returned tt
  | Nullish => Thrown TypeError
  end.

(** The [finally] block of [bookSlot]. *)
Definition cleared (w : World) : World :=
  perform (SetBookingSlotId None) (perform (SetBookingInProgress false) w).

(** The slot query fails with cause [e]: the call throws, or it returns an
    [error]. *)
Inductive load_failure (b : Backend) (q : Query) : thrown -> Prop :=
| load_throws : forall e,
    selectRows b q = Rejected e -> load_failure b q e
| load_error : forall r e,
    selectRows b q = Fulfilled r -> rows_error r = Some e ->
    load_failure b q (Obj e).

(** A booking attempt fails with [e] in one of its first three steps:
    resolving the user, the booking procedure, the profile fetches. *)
Inductive booking_failure (b : Backend) (mentorId slotId : string)
  : thrown -> Prop :=
| auth_throws : forall e,
    getUser b = Rejected e ->
    booking_failure b mentorId slotId e
| auth_absent :
    getUser b = Fulfilled (mkAuth None) ->
    booking_failure b mentorId slotId (Error "Not authenticated")
| rpc_throws : forall user e,
    getUser b = Fulfilled (mkAuth (Some user)) ->
    rpc b "book_time_slot" (mkBookArgs slotId (User.id user) mentorId)
      = Rejected e ->
    booking_failure b mentorId slotId e
| rpc_fails : forall user r e,
    getUser b = Fulfilled (mkAuth (Some user)) ->
    rpc b "book_time_slot" (mkBookArgs slotId (User.id user) mentorId)
      = Fulfilled r ->
    rpc_error r = Some e ->
    booking_failure b mentorId slotId e
| rpc_falsy : forall user r,
    getUser b = Fulfilled (mkAuth (Some user)) ->
    rpc b "book_time_slot" (mkBookArgs slotId (User.id user) mentorId)
      = Fulfilled r ->
    rpc_error r = None ->
    truthy (rpc_data r) = false ->
    booking_failure b mentorId slotId (Error "Failed to book the slot")
| profiles_throw : forall user r e,
    getUser b = Fulfilled (mkAuth (Some user)) ->
    rpc b "book_time_slot" (mkBookArgs slotId (User.id user) mentorId)
      = Fulfilled r ->
    rpc_error r = None ->
    truthy (rpc_data r) = true ->
    all2 (studentFirst b)
         (selectSingle b (studentQuery user))
         (selectSingle b (mentorQuery mentorId)) = Rejected e ->
    booking_failure b mentorId slotId e
| profiles_absent : forall user r sp mp,
    getUser b = Fulfilled (mkAuth (Some user)) ->
    rpc b "book_time_slot" (mkBookArgs slotId (User.id user) mentorId)
      = Fulfilled r ->
    rpc_error r = None ->
    truthy (rpc_data r) = true ->
    selectSingle b (studentQuery user) = Fulfilled sp ->
    selectSingle b (mentorQuery mentorId) = Fulfilled mp ->
    single_data sp = None \/ single_data mp = None ->
    booking_failure b mentorId slotId
      (Error "Could not fetch user profiles").

(** The mail a booking of [startTime] sends to the two profiles. *)
Definition confirmation (gigTitle startTime : string) (sp mp : Profile.t)
  : EmailParams :=
  {| student_email := Profile.email sp;
     mentor_email := Profile.email mp;
     email_start_time := startTime;
     mentor_name := Profile.full_name mp;
     student_name := Profile.full_name sp;
     gig_title := gigTitle |}.

(** ** How the parked invocations treat the in-progress flag *)

Definition notRpc (c : call) : Prop :=
  match c with
  | Rpc _ _ => False
  | _ => True
  end.

(** [quiet p]: [p] never writes [bookingInProgress] and never awaits the
    booking procedure.  The continuations of [loadAvailableSlots] are so. *)
Fixpoint quiet (p : async unit) : Prop :=
  match p with
  | Ret _ | Throw _ => True
  | Act (SetBookingInProgress _) _ => False
  | Act _ k => quiet k
  | Await c k => notRpc c /\ forall r, quiet (k r)
  | AwaitAll _ _ k => forall r, quiet (k r)
  end.

(** [closing last lastId p]: [p] reaches an [await] only without having
    written [bookingInProgress] since it was resumed, and reaches its end
    only with [false] as its last write to [bookingInProgress] and [null] as
    its last write to [bookingSlotId] ([last] and [lastId] are the last
    writes so far).  The continuations of [bookSlot] are so. *)
Fixpoint closing (last : option bool) (lastId : option (option string))
  (p : async unit) : Prop :=
  match p with
  | Ret _ | Throw _ => last = Some false /\ lastId = Some None
  | Act (SetBookingInProgress b) k => closing (Some b) lastId k
  | Act (SetBookingSlotId o) k => closing last (Some o) k
  | Act _ k => closing last lastId k
  | Await _ k => last = None /\ forall r, closing None None (k r)
  | AwaitAll _ _ k => last = None /\ forall r, closing None None (k r)
  end.

(** What an invocation that parks again must be parked on. *)
Definition quietly_parked (t : option suspended) : Prop :=
  match t with
  | Some (OnOne c k) => notRpc c /\ forall r, quiet (k r)
  | Some (OnAll _ _ _ _ k) => forall r, quiet (k r)
  | None => True
  end.

Definition closing_parked (t : option suspended) : Prop :=
  match t with
  | Some (OnOne _ k) => forall r, closing None None (k r)
  | Some (OnAll _ _ _ _ k) => forall r, closing None None (k r)
  | None => True
  end.

Definition disciplined (t : task) : Prop :=
  match source t, parked t with
  | FromLoad, OnOne c k => notRpc c /\ forall r, quiet (k r)
  | FromLoad, OnAll _ _ _ _ k => forall r, quiet (k r)
  | FromBook _, OnOne _ k => forall r, closing None None (k r)
  | FromBook _, OnAll _ _ _ _ k => forall r, closing None None (k r)
  end.

Definition busy (s : System) : bool := bookingInProgress (st (world s)).

(** What holds of the systems a flag-respecting caller can reach. *)
Record serialised (s : System) : Prop := {
  ser_tasks : Forall disciplined (pool s);
  ser_one : bookings_in_flight s <= 1;
  ser_idle : busy s = false -> bookings_in_flight s = 0
}.

(** ** Further vocabulary *)

(** The remote calls recorded in a history, in the order they were made. *)
Fixpoint requests (h : list event) : list call :=
  match h with
  | [] => []
  | Issued c :: h' => c :: requests h'
  | Did _ :: h' => requests h'
  end.

(** The mails a history asked the mailer for. *)
Fixpoint issued_mails (h : list event) : list EmailParams :=
  match h with
  | [] => []
  | Issued (SendBookingEmails p) :: h' => p :: issued_mails h'
  | _ :: h' => issued_mails h'
  end.

(** Steps 1 to 3 of a booking attempt succeed: [user] is signed in, the
    booking procedure answers without error and with a truthy result, and the
    two profile fetches return [sp] and [mp]. *)
Inductive prepared (b : Backend) (mentorId slotId : string)
  (user : User.t) (sp mp : Profile.t) : Prop :=
| prepared_intro : forall r student mentor,
    getUser b = Fulfilled (mkAuth (Some user)) ->
    rpc b "book_time_slot" (mkBookArgs slotId (User.id user) mentorId)
      = Fulfilled r ->
    rpc_error r = None ->
    truthy (rpc_data r) = true ->
    selectSingle b (studentQuery user) = Fulfilled student ->
    single_data student = Some sp ->
    selectSingle b (mentorQuery mentorId) = Fulfilled mentor ->
    single_data mentor = Some mp ->
    prepared b mentorId slotId user sp mp.

(** The world of a booking attempt when it turns to the mailer. *)
Definition fetched (mentorId slotId : string) (user : User.t) (w : World)
  : World :=
  issue (SelectSingle (mentorQuery mentorId))
    (issue (SelectSingle (studentQuery user))
       (issue (Rpc "book_time_slot"
                   (mkBookArgs slotId (User.id user) mentorId))
          (issue AuthGetUser w))).

(** [console.warn] of the mailer's report, when it is a failure. *)
Definition warned (er : EmailResult) (w : World) : World :=
  if success er then w
  else perform (ConsoleWarn "Emails may not have been sent successfully:"
                            (email_error er)) w.

(** The booking procedure call [bookSlot] makes for the user [getUser]
    resolves to; none when there is no user. *)
Definition rpc_due (b : Backend) (mentorId slotId : string)
  : list (string * BookArgs) :=
  match getUser b with
  | Fulfilled a =>
      match auth_user a with
      | Some user =>
          [("book_time_slot", mkBookArgs slotId (User.id user) mentorId)]
      | None => []
      end
  | Rejected _ => []
  end.

(** [keeps_loaded p]: [p] never sets [loading] back to [true]. *)
Fixpoint keeps_loaded (p : async unit) : Prop :=
  match p with
  | Ret _ | Throw _ => True
  | Act (SetLoading b) k => b = false /\ keeps_loaded k
  | Act _ k => keeps_loaded k
  | Await _ k => forall r, keeps_loaded (k r)
  | AwaitAll _ _ k => forall r, keeps_loaded (k r)
  end.

Definition parked_keeps_loaded (t : suspended) : Prop :=
  match t with
  | OnOne _ k => forall r, keeps_loaded (k r)
  | OnAll _ _ _ _ k => forall r, keeps_loaded (k r)
  end.

(** Where a program parks first; the world it runs in has no say in that. *)
Definition first_park (p : async unit) : option suspended :=
  snd (advance p initialWorld).

(** A parked invocation of [loadAvailableSlots] awaits its one query. *)
Definition fresh_load (t : task) : Prop :=
  source t = FromLoad ->
  exists mentorId now,
    Some (parked t) = first_park (loadAvailableSlots mentorId now).

(** The rows of the list that show the loading indicator. *)
Definition loading_rows (v : View) : list Row :=
  match body v with
  | SlotList rows => filter isLoading rows
  | Message _ => []
  end.

(** The mailer is down: its promise is rejected. *)
Definition mailerDownBackend : Backend :=
  {| getUser := getUser (backend true);
     rpc := rpc (backend true);
     selectRows := selectRows (backend true);
     selectSingle := selectSingle (backend true);
     sendBookingEmails := fun _ => Rejected (Error "Network request failed");
     studentFirst := true |}.

(** Two loads in flight; the answer to the first arrives last. *)
Definition lateAnswer : list input :=
  [ Render "m1" "2025-01-01T00:00Z";
    Render "m2" "2025-01-01T00:05Z";
    Settle 1 [OfRows (Fulfilled (mkRows (Some [s2]) None))] ].

Definition awaitingFirstAnswer : System :=
  Eval vm_compute in
    match exec "Algebra" (Fulfilled tt) always lateAnswer unmounted with
    | Some s => s
    | None => unmounted
    end.

(** The first load is over; the mentor changes and the reload is pending. *)
Definition reloading : list input :=
  [ Render "m1" "2025-01-01T00:00Z";
    Settle 0 [OfRows (Fulfilled (mkRows (Some [s1]) None))] ].

Definition afterFirstLoad : System :=
  Eval vm_compute in
    match exec "Algebra" (Fulfilled tt) always reloading unmounted with
    | Some s => s
    | None => unmounted
    end.

(** Two bookings overlap: the component left to itself after [bookingAB]. *)
Definition overlapping : System :=
  Eval vm_compute in
    match exec "Algebra" (Fulfilled tt) always bookingAB unmounted with
    | Some s => s
    | None => unmounted
    end.

(** The reload for the second mentor is pending. *)
Definition reloadPending : System :=
  Eval vm_compute in
    match exec "Algebra" (Fulfilled tt) always
               [Render "m2" "2025-01-01T00:05Z"] afterFirstLoad with
    | Some s => s
    | None => unmounted
    end.

(** Of two overlapping bookings the first fails: the procedure times out. *)
Definition timedOut : list settlement :=
  [OfRpc (Rejected (Error "The request timed out"))].

Definition firstEnded : System :=
  Eval vm_compute in
    match dispatch "Algebra" (Fulfilled tt) always (Settle 0 timedOut)
                   overlapping with
    | Some s => s
    | None => unmounted
    end.

(** ** What an invocation does by itself *)

(** The events of the synchronous stretch of [p]: what it does up to its
    next [await], or to its end. *)
Fixpoint stretch (p : async unit) : list event :=
  match p with
  | Ret _ | Throw _ => []
  | Act a k => Did a :: stretch k
  | Await c _ => [Issued c]
  | AwaitAll c1 c2 _ => [Issued c1; Issued c2]
  end.

Definition happen (w : World) (ev : event) : World :=
  match ev with
  | Did a => perform a w
  | Issued c => issue c w
  end.

(** The world after these events. *)
Definition replay (evs : list event) (w : World) : World :=
  fold_left happen evs w.

(** A settlement reaching a parked invocation: of the call it awaits, or of
    one promise of the [Promise.all] it awaits. *)
Inductive arrival : Type :=
| Sole (x : settlement)
| Member (second : bool) (x : settlement).

Definition receive (t : suspended) (a : arrival) : option fed :=
  match a with
  | Sole x => option_map Resumed (feed t [x])
  | Member second x => feedMember t second x
  end.

(** The input that brings an arrival to the [n]th parked invocation. *)
Definition arrive (n : nat) (a : arrival) : input :=
  match a with
  | Sole x => Settle n [x]
  | Member second x => SettleMember n second x
  end.

(** The stretches of an invocation parked on [t], one for each arrival of
    the script, which must bring it to its end. *)
Fixpoint unfolds (t : option suspended) (script : list arrival)
  : option (list (list event)) :=
  match script, t with
  | [], None => Some []
  | a :: rest, Some t =>
      match receive t a with
      | Some (Resumed p) =>
          option_map (cons (stretch p)) (unfolds (first_park p) rest)
      | Some (Held t') => option_map (cons []) (unfolds (Some t') rest)
      | None => None
      end
  | _, _ => None
  end.

(** What an invocation of [p] does by itself, stretch by stretch, when its
    answers arrive as the script says.  The world plays no part in it, nor
    does anything that other invocations do in between. *)
Definition stretches (p : async unit) (script : list arrival)
  : option (list (list event)) :=
  option_map (cons (stretch p)) (unfolds (first_park p) script).

(** The two profile fetches settle in either order. *)
Definition profile_arrivals (mentorFirst : bool)
  (student mentor : settled SingleResponse) : list arrival :=
  if mentorFirst
  then [Member true (OfSingle mentor); Member false (OfSingle student)]
  else [Member false (OfSingle student); Member true (OfSingle mentor)].

(** Where an invocation parked on [t] is parked after the arrivals of the
    script ([Some None]: it has ended). *)
Fixpoint park_after (t : option suspended) (script : list arrival)
  : option (option suspended) :=
  match script with
  | [] => Some t
  | a :: rest =>
      match t with
      | Some t0 =>
          match receive t0 a with
          | Some (Resumed p) => park_after (first_park p) rest
          | Some (Held t') => park_after (Some t') rest
          | None => None
          end
      | None => None
      end
  end.

(** The answers of the backend to steps 1 to 3 of a booking attempt, in the
    order they arrive. *)
Definition attempt_prelude (b : Backend) (mentorId slotId : string)
  (user : User.t) (mentorFirst : bool) : list arrival :=
  [Sole (OfAuth (getUser b));
   Sole (OfRpc (rpc b "book_time_slot"
                    (mkBookArgs slotId (User.id user) mentorId)))]
  ++ profile_arrivals mentorFirst
       (selectSingle b (studentQuery user))
       (selectSingle b (mentorQuery mentorId)).

(** The answers of the backend to a booking attempt that reaches the
    mailer, in the order they arrive. *)
Definition attempt_script (b : Backend)
  (mentorId gigTitle slotId startTime : string)
  (user : User.t) (sp mp : Profile.t) (mentorFirst : bool) : list arrival :=
  attempt_prelude b mentorId slotId user mentorFirst
  ++ [Sole (OfEmail (sendBookingEmails b
                       (confirmation gigTitle startTime sp mp)))].

(** A booking of [s1] has come to the mailer, while a reload for another
    mentor has failed. *)
Definition reloadFailed : list input :=
  loaded
  ++ [ Click s1;
       Render "m2" "2025-01-01T00:05Z";
       Settle 1 [OfRows (Rejected (Error "Failed to fetch"))];
       Settle 0 [signedIn];
       Settle 0 [OfRpc (Fulfilled (mkRpc (JBool true) None))];
       SettleMember 0 false
         (OfSingle (Fulfilled (mkSingle (Some studentProfile) None)));
       SettleMember 0 true
         (OfSingle (Fulfilled (mkSingle (Some mentorProfile) None))) ].

Definition awaitingMailer : System :=
  Eval vm_compute in
    match exec "Algebra" (Fulfilled tt) whenIdle reloadFailed unmounted with
    | Some s => s
    | None => unmounted
    end.

(** The mailer answers, and the booking goes through. *)
Definition reloadFailsMeanwhile (mailed : bool) : list input :=
  reloadFailed
  ++ [ Settle 0 [OfEmail (sendBookingEmails (backend mailed)
                            (confirmation "Algebra" "2025-01-10T10:00Z"
                                          studentProfile mentorProfile))] ].

(** The booking procedure fails with an error that has no message. *)
Definition mutedBackend : Backend :=
  {| getUser := getUser (backend true);
     rpc := fun _ _ => Fulfilled (mkRpc JNull (Some (Error "")));
     selectRows := selectRows (backend true);
     selectSingle := selectSingle (backend true);
     sendBookingEmails := sendBookingEmails (backend true);
     studentFirst := true |}.

(** The mailer is down, and its rejection has no message. *)
Definition mailerMuteBackend : Backend :=
  {| getUser := getUser (backend true);
     rpc := rpc (backend true);
     selectRows := selectRows (backend true);
     selectSingle := selectSingle (backend true);
     sendBookingEmails := fun _ => Rejected (Error "");
     studentFirst := true |}.

(** Both profile fetches fail, the mentor's first. *)
Definition profilesDownBackend : Backend :=
  {| getUser := getUser (backend true);
     rpc := rpc (backend true);
     selectRows := selectRows (backend true);
     selectSingle := fun q =>
       Rejected (Error (if String.eqb (table q) "profiles"
                        then "student down" else "mentor down"));
     sendBookingEmails := sendBookingEmails (backend true);
     studentFirst := false |}.


(** Case analysis over the settlements a continuation may receive. *)
Ltac settle_cases :=
  repeat (simpl; intros;
          match goal with
          | |- _ /\ _ => split
          | |- True => exact I
          | |- ?x = ?x => reflexivity
          | r : settled _ |- _ => destruct r
          | |- context [message_of ?e] => destruct e
          | |- context [match ?x with _ => _ end] => destruct x
          end).

(** * Properties *)

(** ** Running composite programs *)

Section Run.

Variable b : Backend.

Lemma run_bind : forall (A B : Type) (p : async A) (f : A -> async B) w,
  run b (bind p f) w =
  match run b p w with
  | (w', Returned r) => run b (f r) w'
  | (w', Thrown e) => (w', Thrown e)
  end.
Proof.
  induction p as [r | e | a k IH | c k IH | c1 c2 k IH]; intros f w;
    simpl; auto.
Qed.

Lemma run_catch : forall (R : Type) (p : async R) h w,
  run b (tryCatch p h) w =
  match run b p w with
  | (w', Returned r) => (w', Returned r)
  | (w', Thrown e) => run b (h e) w'
  end.
Proof.
  induction p as [r | e | a k IH | c k IH | c1 c2 k IH]; intros h w;
    simpl; auto.
Qed.

Lemma run_finally : forall (R : Type) (p : async R) f w,
  run b (tryFinally p f) w =
  match run b p w with
  | (w', o) =>
      match run b f w' with
      | (w'', Returned _) => (w'', o)
      | (w'', Thrown e) => (w'', Thrown e)
      end
  end.
Proof.
  induction p as [r | e | a k IH | c k IH | c1 c2 k IH]; intros f w;
    simpl; auto.
  - rewrite run_bind. destruct (run b f w) as [w' [[]|e]]; reflexivity.
  - rewrite run_bind. destruct (run b f w) as [w' [[]|e']]; reflexivity.
Qed.

Lemma run_act_then : forall (R : Type) (a : action) (q : async R) w,
  run b (act a ;; q) w = run b q (perform a w).
Proof. reflexivity. Qed.

(** [bookSlot] is its entry writes, its [try] block, the [catch] block when
    that throws, and its [finally] block. *)
Lemma run_bookSlot : forall mentorId gigTitle cb slotId startTime w,
  run b (bookSlot mentorId gigTitle cb slotId startTime) w =
  match run b (bookSlot_try mentorId gigTitle cb slotId startTime)
            (entered slotId w) with
  | (w1, Returned _) => (cleared w1, Returned tt)
  | (w1, Thrown e) => (cleared (reported e w1), rethrown e)
  end.
Proof.
  intros mentorId gigTitle cb slotId startTime w. unfold bookSlot.
  rewrite !run_act_then, run_finally, run_catch. fold (entered slotId w).
  destruct (run b (bookSlot_try mentorId gigTitle cb slotId startTime)
              (entered slotId w)) as [w1 [[] | [e |]]]; reflexivity.
Qed.

Lemma run_loadAvailableSlots : forall mentorId now w,
  run b (loadAvailableSlots mentorId now) w =
  match run b (loadAvailableSlots_try mentorId now) w with
  | (w1, Returned _) => (perform (SetLoading false) w1, Returned tt)
  | (w1, Thrown e) =>
      (perform (SetLoading false)
         (perform (SetError "Failed to load available time slots")
            (perform (ConsoleError "Error loading slots:" e) w1)),
       Returned tt)
  end.
Proof.
  intros mentorId now w. unfold loadAvailableSlots.
  rewrite run_finally, run_catch.
  destruct (run b (loadAvailableSlots_try mentorId now) w)
    as [w1 [[]|e]]; reflexivity.
Qed.

End Run.

(** ** The event loop performs the stretches *)

Lemma first_park_anywhere : forall p w,
  snd (advance p w) = first_park p.
Proof.
  unfold first_park.
  induction p as [r | e | a k IH | c k IH | c1 c2 k IH]; intro w; simpl;
    auto.
  rewrite IH. symmetry. apply IH.
Qed.

Lemma advance_replay : forall p w,
  advance p w = (replay (stretch p) w, first_park p).
Proof.
  intros p w. rewrite <- (first_park_anywhere p w).
  revert w. induction p as [r | e | a k IH | c k IH | c1 c2 k IH];
    intro w; simpl; auto.
Qed.

(** A settlement makes the invocation it reaches do its next stretch, on
    the world as it is by then; nothing else happens. *)
Lemma dispatch_arrival : forall gigTitle cb mayBook s n t a,
  nth_error (pool s) n = Some t ->
  dispatch gigTitle cb mayBook (arrive n a) s =
  match receive (parked t) a with
  | Some (Resumed p) =>
      Some {| mentor := mentor s;
              world := replay (stretch p) (world s);
              pool := replaceAt n (spawn (source t) (first_park p))
                                (pool s) |}
  | Some (Held t') =>
      Some {| mentor := mentor s; world := world s;
              pool := replaceAt n (spawn (source t) (Some t')) (pool s) |}
  | None => None
  end.
Proof.
  intros gigTitle cb mayBook s n t [x | second x] Hn; simpl; rewrite Hn.
  - destruct (feed (parked t) [x]) as [p |]; simpl; [| reflexivity].
    rewrite advance_replay. reflexivity.
  - destruct (feedMember (parked t) second x) as [[p | t'] |];
      [| reflexivity | reflexivity].
    rewrite advance_replay. reflexivity.
Qed.

(** A click makes a new invocation of [bookSlot] do its first stretch. *)
Lemma dispatch_click : forall gigTitle cb mayBook s m slot,
  mentor s = Some m ->
  shown (st (world s)) slot && mayBook (st (world s)) = true ->
  dispatch gigTitle cb mayBook (Click slot) s =
  Some {| mentor := mentor s;
          world := replay (stretch (bookSlot m gigTitle cb
                                      (TimeSlot.id slot)
                                      (TimeSlot.start_time slot)))
                          (world s);
          pool := pool s
                  ++ spawn (FromBook (TimeSlot.id slot))
                       (first_park (bookSlot m gigTitle cb
                                      (TimeSlot.id slot)
                                      (TimeSlot.start_time slot))) |}.
Proof.
  intros gigTitle cb mayBook s m slot Hm Hs.
  unfold dispatch. rewrite Hm, Hs, advance_replay. reflexivity.
Qed.

(** ** The [try] block of [bookSlot] *)

Lemma issued_rpcs_app : forall h1 h2,
  issued_rpcs (h1 ++ h2) = issued_rpcs h1 ++ issued_rpcs h2.
Proof.
  induction h1 as [| ev h1 IH]; intro h2; simpl; auto.
  destruct ev as [a | []]; simpl; rewrite ?IH; reflexivity.
Qed.

(** With steps 1 to 3 succeeding and the mailer answering, the block warns
    on the console if the mailer reported a failure and calls
    [onBookingComplete]; it writes no state. *)
Lemma bookSlot_try_mailed :
  forall b mentorId gigTitle cb slotId startTime user sp mp er w,
    prepared b mentorId slotId user sp mp ->
    sendBookingEmails b (confirmation gigTitle startTime sp mp)
      = Fulfilled er ->
    run b (bookSlot_try mentorId gigTitle cb slotId startTime) w =
    (perform OnBookingComplete
       (warned er
          (issue (SendBookingEmails (confirmation gigTitle startTime sp mp))
             (fetched mentorId slotId user w))),
     match cb with
     | Fulfilled _ => Returned tt
     | Rejected e => Thrown e
     end).
Proof.
  intros b mentorId gigTitle cb slotId startTime user sp mp er w
         [r student mentor Hu Hr Hre Hrd Hs Hsd Hm Hmd] He.
  unfold confirmation in *.
  unfold bookSlot_try, await, await_all, warned, fetched. simpl.
  rewrite Hu. simpl. rewrite Hr. simpl. rewrite Hre, Hrd. simpl.
  rewrite Hs, Hm. simpl. rewrite Hsd, Hmd. simpl. rewrite He. simpl.
  destruct (success er), cb as [[] | e]; reflexivity.
Qed.

Lemma bookSlot_try_mail_rejected :
  forall b mentorId gigTitle cb slotId startTime user sp mp e w,
    prepared b mentorId slotId user sp mp ->
    sendBookingEmails b (confirmation gigTitle startTime sp mp)
      = Rejected e ->
    run b (bookSlot_try mentorId gigTitle cb slotId startTime) w =
    (issue (SendBookingEmails (confirmation gigTitle startTime sp mp))
       (fetched mentorId slotId user w),
     Thrown e).
Proof.
  intros b mentorId gigTitle cb slotId startTime user sp mp e w
         [r student mentor Hu Hr Hre Hrd Hs Hsd Hm Hmd] He.
  unfold confirmation in *.
  unfold bookSlot_try, await, await_all, fetched. simpl.
  rewrite Hu. simpl. rewrite Hr. simpl. rewrite Hre, Hrd. simpl.
  rewrite Hs, Hm. simpl. rewrite Hsd, Hmd. simpl. rewrite He. reflexivity.
Qed.

(** A failure in the first three steps is thrown out of the block, before
    the completion callback and without a state write. *)
Lemma bookSlot_try_failure :
  forall b mentorId gigTitle cb slotId startTime e w,
    booking_failure b mentorId slotId e ->
    exists w1,
      run b (bookSlot_try mentorId gigTitle cb slotId startTime) w
        = (w1, Thrown e)
      /\ st w1 = st w
      /\ console w1 = console w
      /\ completions w1 = completions w.
Proof.
  intros b mentorId gigTitle cb slotId startTime e w H.
  unfold bookSlot_try, await, await_all.
  destruct H as [e Hu | Hu | user e Hu Hr | user r e Hu Hr Hre
                 | user r Hu Hr Hre Hrd | user r e Hu Hr Hre Hrd Hp
                 | user r sp mp Hu Hr Hre Hrd Hs Hm Hd];
    simpl; rewrite Hu; simpl;
    try (rewrite Hr; simpl);
    try (rewrite Hre; simpl);
    try (rewrite Hrd; simpl);
    try (rewrite Hp; simpl);
    try (rewrite Hs, Hm; simpl);
    try (eexists; split; [reflexivity | simpl; auto]).
  destruct Hd as [Hd | Hd]; rewrite Hd; [| destruct (single_data sp)];
    (eexists; split; [reflexivity | simpl; auto]).
Qed.

(** Every attempt either fails in steps 1 to 3 or comes to the mailer with
    the two profiles it fetched. *)
Lemma attempt_cases : forall b mentorId slotId,
  (exists e, booking_failure b mentorId slotId e)
  \/ (exists user sp mp, prepared b mentorId slotId user sp mp).
Proof.
  intros b mentorId slotId.
  destruct (getUser b) as [[[user |]] | e] eqn:Hu;
    [| left; eexists; apply auth_absent; assumption
     | left; eexists; apply auth_throws; eassumption].
  destruct (rpc b "book_time_slot"
              (mkBookArgs slotId (User.id user) mentorId))
    as [r | e] eqn:Hr;
    [| left; eexists; eapply rpc_throws; eassumption].
  destruct (rpc_error r) as [e |] eqn:Hre;
    [left; eexists; eapply rpc_fails; eassumption |].
  destruct (truthy (rpc_data r)) eqn:Hrd;
    [| left; eexists; eapply rpc_falsy; eassumption].
  destruct (selectSingle b (studentQuery user)) as [sp | e1] eqn:Hs;
    destruct (selectSingle b (mentorQuery mentorId)) as [mp | e2] eqn:Hm;
    try (left; eexists; eapply profiles_throw; try eassumption;
         rewrite Hs, Hm; reflexivity).
  destruct (single_data sp) as [p1 |] eqn:Hd1;
    [| left; eexists; eapply profiles_absent; eauto].
  destruct (single_data mp) as [p2 |] eqn:Hd2;
    [| left; eexists; eapply profiles_absent; eauto].
  right. exists user, p1, p2. econstructor; eassumption.
Qed.

(** ** Booking: success, tolerated mail failure, failure *)

(** The stretches of an attempt whose steps 1 to 3 succeed, up to the
    answer of the mailer. *)
Lemma bookSlot_stretches_mailed :
  forall b mentorId gigTitle cb slotId startTime user sp mp er mentorFirst,
    prepared b mentorId slotId user sp mp ->
    sendBookingEmails b (confirmation gigTitle startTime sp mp)
      = Fulfilled er ->
    stretches (bookSlot mentorId gigTitle cb slotId startTime)
      (attempt_script b mentorId gigTitle slotId startTime user sp mp
                      mentorFirst)
    = Some
        [ [Did (SetBookingSlotId (Some slotId));
           Did (SetBookingInProgress true);
           Did (SetError "");
           Issued AuthGetUser];
          [Issued (Rpc "book_time_slot"
                       (mkBookArgs slotId (User.id user) mentorId))];
          [Issued (SelectSingle (studentQuery user));
           Issued (SelectSingle (mentorQuery mentorId))];
          [];
          [Issued (SendBookingEmails
                     (confirmation gigTitle startTime sp mp))];
          (if success er then []
           else [Did (ConsoleWarn
                        "Emails may not have been sent successfully:"
                        (email_error er))])
          ++ Did OnBookingComplete
             :: match cb with
                | Fulfilled _ => []
                | Rejected e =>
                    Did (ConsoleError "Booking error:" e)
                    :: match e with
                       | Obj e' =>
                           [Did (SetError
                                   (str_or (message e')
                                      "Failed to book the session. Please try again."))]
                       | Nullish => []
                       end
                end
             ++ [Did (SetBookingInProgress false);
                 Did (SetBookingSlotId None)] ].
Proof.
  intros b mentorId gigTitle cb slotId startTime user sp mp er mentorFirst
         [r student mentor Hu Hr Hre Hrd Hs Hsd Hm Hmd] He.
  unfold stretches, attempt_script, attempt_prelude, profile_arrivals,
    confirmation in *.
  rewrite Hu, Hr, Hs, Hm, He.
  destruct mentorFirst; simpl; rewrite Hre, Hrd; simpl;
    rewrite Hsd, Hmd; simpl;
    destruct (success er), cb as [[] | [e |]]; reflexivity.
Qed.

(** After steps 1 to 3 the attempt is parked on the mailer; its answer makes
    it warn if the mailer reported a failure, call [onBookingComplete],
    report what the callback throws, lower the booking cells and end. *)
Lemma bookSlot_awaits_mailer :
  forall b mentorId gigTitle cb slotId startTime user sp mp mentorFirst,
    prepared b mentorId slotId user sp mp ->
    exists k,
      park_after
        (first_park (bookSlot mentorId gigTitle cb slotId startTime))
        (attempt_prelude b mentorId slotId user mentorFirst)
      = Some (Some (OnOne (SendBookingEmails
                             (confirmation gigTitle startTime sp mp)) k))
      /\ forall er,
           first_park (k (Fulfilled er)) = None
           /\ stretch (k (Fulfilled er)) =
               (if success er then []
                else [Did (ConsoleWarn
                             "Emails may not have been sent successfully:"
                             (email_error er))])
               ++ Did OnBookingComplete
                  :: match cb with
                     | Fulfilled _ => []
                     | Rejected e =>
                         Did (ConsoleError "Booking error:" e)
                         :: match e with
                            | Obj e' =>
                                [Did (SetError
                                        (str_or (message e')
                                           "Failed to book the session. Please try again."))]
                            | Nullish => []
                            end
                     end
                  ++ [Did (SetBookingInProgress false);
                      Did (SetBookingSlotId None)].
Proof.
  intros b mentorId gigTitle cb slotId startTime user sp mp mentorFirst
         [r student mentor Hu Hr Hre Hrd Hs Hsd Hm Hmd].
  unfold attempt_prelude, profile_arrivals, confirmation in *.
  rewrite Hu, Hr, Hs, Hm.
  destruct mentorFirst; simpl; rewrite Hre, Hrd; simpl;
    rewrite Hsd, Hmd; simpl;
    (eexists; split; [reflexivity |]);
    intro er; simpl;
    destruct (success er), cb as [[] | [e |]]; split; reflexivity.
Qed.

(** The mailer's answer reaching an attempt parked on it, in whatever state
    the component is by then. *)
Lemma mailer_answer_dispatched :
  forall b mentorId gigTitle slotId startTime user sp mp mentorFirst er
         mayBook s n t,
    prepared b mentorId slotId user sp mp ->
    nth_error (pool s) n = Some t ->
    park_after
      (first_park (bookSlot mentorId gigTitle (Fulfilled tt) slotId
                            startTime))
      (attempt_prelude b mentorId slotId user mentorFirst)
    = Some (Some (parked t)) ->
    dispatch gigTitle (Fulfilled tt) mayBook
             (Settle n [OfEmail (Fulfilled er)]) s
    = Some {| mentor := mentor s;
              world :=
                replay [Did (SetBookingInProgress false);
                        Did (SetBookingSlotId None)]
                  (perform OnBookingComplete (warned er (world s)));
              pool := replaceAt n [] (pool s) |}.
Proof.
  intros b mentorId gigTitle slotId startTime user sp mp mentorFirst er
         mayBook s n t Hp Hn Ht.
  destruct (@bookSlot_awaits_mailer b mentorId gigTitle (Fulfilled tt)
              slotId startTime user sp mp mentorFirst Hp) as (k & Hk & He).
  rewrite Hk in Ht. injection Ht as Ht.
  destruct (He er) as [Hpark Hst].
  change (Settle n [OfEmail (Fulfilled er)])
    with (arrive n (Sole (OfEmail (Fulfilled er)))).
  rewrite (@dispatch_arrival gigTitle (Fulfilled tt) mayBook s n t
             (Sole (OfEmail (Fulfilled er))) Hn).
  rewrite <- Ht. cbn [receive feed option_map deliver].
  cbn [response] in *. rewrite Hpark, Hst.
  unfold warned. destruct (success er); destruct (source t); reflexivity.
Qed.

(** C2, as the code has it.  Take a booking attempt with an authenticated
    user, a truthy result of the booking procedure, both profiles fetched,
    the mails dispatched successfully, and a completion callback that
    returns.  By itself, whatever else goes on while it is in flight, the
    attempt does this and no more: it clears the error state on entry, makes
    its five requests, invokes [onBookingComplete] exactly once and lowers
    the booking cells; it never writes the error state again.  In the event
    loop, in whatever state the component is when the mailer's answer
    reaches the attempt, that answer adds one completion, logs nothing and
    leaves the error state as it is.  Played alone, the attempt therefore
    ends with one more completion and the error state at the empty string
    (no banner).  The error state is shared: what another invocation writes
    to it in the meantime stays. *)
Theorem bookSlot_success_completes_once :
  forall b mentorId gigTitle slotId startTime user sp mp er mentorFirst w,
    prepared b mentorId slotId user sp mp ->
    sendBookingEmails b (confirmation gigTitle startTime sp mp)
      = Fulfilled er ->
    success er = true ->
    stretches (bookSlot mentorId gigTitle (Fulfilled tt) slotId startTime)
      (attempt_script b mentorId gigTitle slotId startTime user sp mp
                      mentorFirst)
    = Some
        [ [Did (SetBookingSlotId (Some slotId));
           Did (SetBookingInProgress true);
           Did (SetError "");
           Issued AuthGetUser];
          [Issued (Rpc "book_time_slot"
                       (mkBookArgs slotId (User.id user) mentorId))];
          [Issued (SelectSingle (studentQuery user));
           Issued (SelectSingle (mentorQuery mentorId))];
          [];
          [Issued (SendBookingEmails
                     (confirmation gigTitle startTime sp mp))];
          [Did OnBookingComplete;
           Did (SetBookingInProgress false);
           Did (SetBookingSlotId None)] ]
    /\ (forall mayBook s n t,
          nth_error (pool s) n = Some t ->
          park_after
            (first_park (bookSlot mentorId gigTitle (Fulfilled tt) slotId
                                  startTime))
            (attempt_prelude b mentorId slotId user mentorFirst)
          = Some (Some (parked t)) ->
          exists s',
            dispatch gigTitle (Fulfilled tt) mayBook
                     (Settle n [OfEmail (Fulfilled er)]) s = Some s'
            /\ completions (world s') = completions (world s) + 1
            /\ error (st (world s')) = error (st (world s))
            /\ console (world s') = console (world s)
            /\ pool s' = replaceAt n [] (pool s))
    /\ (let w' := fst (run b (bookSlot mentorId gigTitle (Fulfilled tt)
                                       slotId startTime) w) in
        completions w' = completions w + 1
        /\ error (st w') = ""
        /\ banner (render (st w')) = None
        /\ console w' = console w).
Proof.
  intros b mentorId gigTitle slotId startTime user sp mp er mentorFirst w
         Hp He Hs.
  split; [| split].
  - rewrite (@bookSlot_stretches_mailed b mentorId gigTitle (Fulfilled tt)
               slotId startTime user sp mp er mentorFirst Hp He).
    rewrite Hs. reflexivity.
  - intros mayBook s n t Hn Ht.
    rewrite (@mailer_answer_dispatched b mentorId gigTitle slotId startTime
               user sp mp mentorFirst er mayBook s n t Hp Hn Ht).
    eexists. split; [reflexivity |].
    unfold warned. rewrite Hs. simpl.
    rewrite ?app_nil_r, ?Nat.add_0_r. auto.
  - rewrite run_bookSlot.
    rewrite (@bookSlot_try_mailed b mentorId gigTitle (Fulfilled tt) slotId
               startTime user sp mp er (entered slotId w) Hp He).
    unfold warned, render. rewrite Hs. simpl.
    rewrite !app_nil_r, !Nat.add_0_r. auto.
Qed.

(** The claim itself fails where invocations interleave: while a booking
    that meets all its conditions is in flight, a reload for another mentor
    fails; the booking completes, and the error of the reload is on
    display. *)
Lemma success_under_a_foreign_error :
  prepared (backend true) "m1" "s1" student studentProfile mentorProfile
  /\ sendBookingEmails (backend true)
       (confirmation "Algebra" "2025-01-10T10:00Z" studentProfile
                     mentorProfile)
     = Fulfilled (mkEmailResult true JUndefined)
  /\ option_map (fun s => (completions (world s), error (st (world s)),
                        banner (render (st (world s))), length (pool s)))
             (exec "Algebra" (Fulfilled tt) whenIdle
                   (reloadFailsMeanwhile true) unmounted)
  = Some (1, "Failed to load available time slots",
          Some "Failed to load available time slots", 0).
Proof.
  split; [econstructor; reflexivity |]. split; reflexivity.
Qed.

(** C3, as the code has it.  Take a booking attempt as in C2, except that
    the mailer reports a failure ([success] is [false]).  By itself the
    attempt does what it does in C2 and, before it invokes
    [onBookingComplete], warns on the console with the mailer's error: the
    callback is still invoked exactly once, and the attempt never writes an
    error.  In the event loop, in whatever state the component is when the
    mailer's answer reaches the attempt, that answer adds the warning and
    one completion and leaves the error state as it is.  Played alone, the
    attempt ends with one more completion, the error state at the empty
    string and that one warning on the console.  What another invocation
    writes to the error state in the meantime stays. *)
Theorem bookSlot_email_failure_tolerated :
  forall b mentorId gigTitle slotId startTime user sp mp er mentorFirst w,
    prepared b mentorId slotId user sp mp ->
    sendBookingEmails b (confirmation gigTitle startTime sp mp)
      = Fulfilled er ->
    success er = false ->
    stretches (bookSlot mentorId gigTitle (Fulfilled tt) slotId startTime)
      (attempt_script b mentorId gigTitle slotId startTime user sp mp
                      mentorFirst)
    = Some
        [ [Did (SetBookingSlotId (Some slotId));
           Did (SetBookingInProgress true);
           Did (SetError "");
           Issued AuthGetUser];
          [Issued (Rpc "book_time_slot"
                       (mkBookArgs slotId (User.id user) mentorId))];
          [Issued (SelectSingle (studentQuery user));
           Issued (SelectSingle (mentorQuery mentorId))];
          [];
          [Issued (SendBookingEmails
                     (confirmation gigTitle startTime sp mp))];
          [Did (ConsoleWarn "Emails may not have been sent successfully:"
                            (email_error er));
           Did OnBookingComplete;
           Did (SetBookingInProgress false);
           Did (SetBookingSlotId None)] ]
    /\ (forall mayBook s n t,
          nth_error (pool s) n = Some t ->
          park_after
            (first_park (bookSlot mentorId gigTitle (Fulfilled tt) slotId
                                  startTime))
            (attempt_prelude b mentorId slotId user mentorFirst)
          = Some (Some (parked t)) ->
          exists s',
            dispatch gigTitle (Fulfilled tt) mayBook
                     (Settle n [OfEmail (Fulfilled er)]) s = Some s'
            /\ completions (world s') = completions (world s) + 1
            /\ error (st (world s')) = error (st (world s))
            /\ console (world s') =
                 console (world s)
                 ++ [LogWarn "Emails may not have been sent successfully:"
                             (email_error er)]
            /\ pool s' = replaceAt n [] (pool s))
    /\ (let w' := fst (run b (bookSlot mentorId gigTitle (Fulfilled tt)
                                       slotId startTime) w) in
        completions w' = completions w + 1
        /\ error (st w') = ""
        /\ banner (render (st w')) = None
        /\ console w' =
             console w
             ++ [LogWarn "Emails may not have been sent successfully:"
                         (email_error er)]).
Proof.
  intros b mentorId gigTitle slotId startTime user sp mp er mentorFirst w
         Hp He Hs.
  split; [| split].
  - rewrite (@bookSlot_stretches_mailed b mentorId gigTitle (Fulfilled tt)
               slotId startTime user sp mp er mentorFirst Hp He).
    rewrite Hs. reflexivity.
  - intros mayBook s n t Hn Ht.
    rewrite (@mailer_answer_dispatched b mentorId gigTitle slotId startTime
               user sp mp mentorFirst er mayBook s n t Hp Hn Ht).
    eexists. split; [reflexivity |].
    unfold warned. rewrite Hs. simpl.
    rewrite ?app_nil_r, ?Nat.add_0_r. auto.
  - rewrite run_bookSlot.
    rewrite (@bookSlot_try_mailed b mentorId gigTitle (Fulfilled tt) slotId
               startTime user sp mp er (entered slotId w) Hp He).
    unfold warned, render. rewrite Hs. simpl.
    rewrite !app_nil_r, !Nat.add_0_r. auto.
Qed.

(** Here too the claim itself fails where invocations interleave: the mail
    failure is tolerated, the booking completes, and the error of a reload
    that failed in the meantime is on display. *)
Lemma mail_failure_under_a_foreign_error :
  prepared (backend false) "m1" "s1" student studentProfile mentorProfile
  /\ sendBookingEmails (backend false)
       (confirmation "Algebra" "2025-01-10T10:00Z" studentProfile
                     mentorProfile)
     = Fulfilled (mkEmailResult false (JStr "SMTP down"))
  /\ option_map (fun s => (completions (world s), error (st (world s)),
                        banner (render (st (world s))), console (world s),
                        length (pool s)))
             (exec "Algebra" (Fulfilled tt) whenIdle
                   (reloadFailsMeanwhile false) unmounted)
  = Some (1, "Failed to load available time slots",
          Some "Failed to load available time slots",
          [LogError "Error loading slots:" (Error "Failed to fetch");
           LogWarn "Emails may not have been sent successfully:"
                   (JStr "SMTP down")],
          0).
Proof.
  split; [econstructor; reflexivity |]. split; reflexivity.
Qed.

(** C4.  When no user is signed in, [bookSlot] issues no call of the booking
    procedure and shows "Not authenticated". *)
Theorem bookSlot_unauthenticated :
  forall b mentorId gigTitle cb slotId startTime w,
    getUser b = Fulfilled (mkAuth None) ->
    let w' := fst (run b (bookSlot mentorId gigTitle cb slotId startTime)
                       w) in
    issued_rpcs (history w') = issued_rpcs (history w)
    /\ error (st w') = "Not authenticated"
    /\ banner (render (st w')) = Some "Not authenticated"
    /\ completions w' = completions w.
Proof.
  intros b mentorId gigTitle cb slotId startTime w Hu w'. subst w'.
  rewrite run_bookSlot. unfold bookSlot_try, await. simpl.
  rewrite Hu. simpl. rewrite !issued_rpcs_app. simpl.
  rewrite !app_nil_r, !Nat.add_0_r. auto.
Qed.

(** C5.  When an error is thrown in steps 1 to 3 (no user or a failing
    [getUser]; a throwing, failing or falsy booking procedure; a failing or
    empty profile fetch, of two failing fetches the one that fails first),
    [bookSlot] ends with the in-progress state cleared, shows the error's
    message when it has one and "Failed to book the session. Please try
    again." when it has none, logs the error, and does not invoke
    [onBookingComplete]. *)
Theorem bookSlot_failure_reported :
  forall b mentorId gigTitle cb slotId startTime (e : JsError) w,
    booking_failure b mentorId slotId e ->
    let w' := fst (run b (bookSlot mentorId gigTitle cb slotId startTime)
                       w) in
    bookingInProgress (st w') = false
    /\ bookingSlotId (st w') = None
    /\ (message e <> "" ->
        error (st w') = message e
        /\ banner (render (st w')) = Some (message e))
    /\ (message e = "" ->
        error (st w') = "Failed to book the session. Please try again."
        /\ banner (render (st w'))
           = Some "Failed to book the session. Please try again.")
    /\ console w' = console w ++ [LogError "Booking error:" e]
    /\ completions w' = completions w.
Proof.
  intros b mentorId gigTitle cb slotId startTime e w Hf w'. subst w'.
  rewrite run_bookSlot.
  destruct (@bookSlot_try_failure b mentorId gigTitle cb slotId startTime
              e (entered slotId w) Hf) as (w1 & -> & Hst & Hco & Hn).
  unfold render. simpl. rewrite Hco, Hn. simpl.
  rewrite !app_nil_r, !Nat.add_0_r. unfold str_or.
  repeat split; auto.
  - apply String.eqb_neq in H. rewrite H. reflexivity.
  - apply String.eqb_neq in H. rewrite !H. reflexivity.
  - rewrite H. reflexivity.
  - rewrite H. reflexivity.
Qed.

(** C9.  Whatever the backend answers, an invocation of [bookSlot] runs to
    its end, and at its end [bookingInProgress] is [false], [bookingSlotId]
    is [null] and no row shows the loading indicator: also when the
    [catch] block itself throws, and when the completion callback does.
    Its promise is fulfilled, unless what the [try] block threw is [null]
    or [undefined]. *)
Theorem bookSlot_always_clears :
  forall b mentorId gigTitle cb slotId startTime w,
    let w' := fst (run b (bookSlot mentorId gigTitle cb slotId startTime)
                       w) in
    (snd (run b (bookSlot_try mentorId gigTitle cb slotId startTime)
              (entered slotId w)) <> Thrown Nullish ->
     snd (run b (bookSlot mentorId gigTitle cb slotId startTime) w)
       = Returned tt)
    /\ bookingInProgress (st w') = false
    /\ bookingSlotId (st w') = None
    /\ forall slot, isLoading (renderRow (st w') slot) = false.
Proof.
  intros b mentorId gigTitle cb slotId startTime w w'. subst w'.
  rewrite run_bookSlot.
  destruct (run b (bookSlot_try mentorId gigTitle cb slotId startTime)
              (entered slotId w)) as [w1 [[] | [e |]]]; simpl; auto.
  split; [intro H; contradiction H; reflexivity | auto].
Qed.

(** C10.  [bookSlot] runs synchronously up to its first remote call,
    [getUser]; by then it has set the error state to the empty string, and
    nothing was requested before. *)
Theorem bookSlot_clears_error_first :
  forall mentorId gigTitle cb slotId startTime w,
    exists k,
      advance (bookSlot mentorId gigTitle cb slotId startTime) w
        = (issue AuthGetUser (entered slotId w), Some (OnOne AuthGetUser k))
      /\ error (st (issue AuthGetUser (entered slotId w))) = ""
      /\ banner (render (st (issue AuthGetUser (entered slotId w)))) = None
      /\ history (issue AuthGetUser (entered slotId w)) =
           history w ++ [Did (SetBookingSlotId (Some slotId));
                         Did (SetBookingInProgress true);
                         Did (SetError "");
                         Issued AuthGetUser].
Proof.
  intros mentorId gigTitle cb slotId startTime w.
  eexists. split; [reflexivity |].
  simpl. rewrite <- !app_assoc. auto.
Qed.

(** ** Loading the slots *)

(** C7.  [loadAvailableSlots] makes one request: the rows of [time_slots]
    whose [mentor_id] is the mentor's, whose [is_booked] is [false] and whose
    [start_time] is at least the current time, in ascending order of
    [start_time].  When the request succeeds the slot list becomes the rows
    returned. *)
Theorem loadAvailableSlots_query :
  forall b mentorId now w r rows,
    let q := {| table := "time_slots";
                columns := "*";
                filters := [FEq "mentor_id" (JStr mentorId);
                            FEq "is_booked" (JBool false);
                            FGte "start_time" (JStr now)];
                ordering := Some ("start_time", true) |} in
    let w' := fst (run b (loadAvailableSlots mentorId now) w) in
    selectRows b q = Fulfilled r ->
    rows_error r = None ->
    rows_data r = Some rows ->
    (exists k, advance (loadAvailableSlots mentorId now) w
               = (issue (Select q) w, Some (OnOne (Select q) k)))
    /\ history w' = history w ++ [Issued (Select q);
                                  Did (SetSlots rows);
                                  Did (SetLoading false)]
    /\ slots (st w') = rows
    /\ loading (st w') = false.
Proof.
  intros b mentorId now w r rows q w' Hq He Hd. subst w'.
  split; [eexists; reflexivity |].
  rewrite run_loadAvailableSlots.
  unfold loadAvailableSlots_try, await. simpl.
  change (slotQuery mentorId now) with q.
  rewrite Hq. simpl. rewrite He, Hd. simpl.
  rewrite <- !app_assoc. auto.
Qed.

(** C8.  When the slot query returns no rows, the slot list is empty,
    loading is over and "No available time slots" is rendered in place of
    the list. *)
Theorem loadAvailableSlots_none :
  forall b mentorId now w r,
    selectRows b (slotQuery mentorId now) = Fulfilled r ->
    rows_error r = None ->
    rows_data r = Some [] ->
    let w' := fst (run b (loadAvailableSlots mentorId now) w) in
    slots (st w') = []
    /\ loading (st w') = false
    /\ body (render (st w')) = Message "No available time slots".
Proof.
  intros b mentorId now w r Hq He Hd w'. subst w'.
  rewrite run_loadAvailableSlots.
  unfold loadAvailableSlots_try, await. simpl.
  change (selectRows b _) with (selectRows b (slotQuery mentorId now)).
  rewrite Hq. simpl. rewrite He, Hd. simpl. auto.
Qed.

(** C6, as the code has it.  When the slot query throws or returns an error,
    "Failed to load available time slots" is shown, the cause is logged on
    the console, loading is over, and the slot list is left as it was: empty
    if it was empty. *)
Theorem loadAvailableSlots_failure :
  forall b mentorId now w e,
    load_failure b (slotQuery mentorId now) e ->
    let w' := fst (run b (loadAvailableSlots mentorId now) w) in
    error (st w') = "Failed to load available time slots"
    /\ banner (render (st w')) = Some "Failed to load available time slots"
    /\ console w' = console w ++ [LogError "Error loading slots:" e]
    /\ loading (st w') = false
    /\ slots (st w') = slots (st w)
    /\ (slots (st w) = [] -> slots (st w') = []).
Proof.
  intros b mentorId now w e Hf w'. subst w'.
  rewrite run_loadAvailableSlots.
  unfold loadAvailableSlots_try, await. simpl.
  change (selectRows b _) with (selectRows b (slotQuery mentorId now)).
  destruct Hf as [e Hq | r e Hq He]; rewrite Hq; simpl;
    [| rewrite He; simpl]; rewrite !app_nil_r; auto 10.
Qed.

(** The slot list does not remain empty at every failed load: the effect
    runs again when [mentorId] changes, and a reload that fails leaves the
    slots of the previous mentor in the list, under the error banner. *)
Lemma failed_reload_keeps_slots :
  option_map (fun s => (slots (st (world s)), error (st (world s)),
                        loading (st (world s)), length (pool s)))
             (exec "Algebra" (Fulfilled tt) always reloadFails unmounted)
  = Some ([s1], "Failed to load available time slots", false, 0)
  /\ ~ (forall b mentorId now w e,
          load_failure b (slotQuery mentorId now) e ->
          slots (st (fst (run b (loadAvailableSlots mentorId now) w))) = []).
Proof.
  split; [reflexivity |].
  intro H.
  specialize (H (slotsBackend (Rejected (Error "Failed to fetch"))) "m2"
                "2025-01-01T00:05Z"
                (perform (SetSlots [s1]) initialWorld)
                (Error "Failed to fetch")).
  discriminate H. apply load_throws. reflexivity.
Qed.


(** ** The event loop *)

(** *** Synchronous stretches and the flag *)

Lemma perform_keeps_flag : forall a w,
  match a with SetBookingInProgress _ => False | _ => True end ->
  bookingInProgress (st (perform a w)) = bookingInProgress (st w).
Proof. intros [] w H; simpl in *; tauto. Qed.

Lemma advance_quiet : forall p w,
  quiet p ->
  bookingInProgress (st (fst (advance p w))) = bookingInProgress (st w)
  /\ quietly_parked (snd (advance p w)).
Proof.
  induction p as [r | e | a k IH | c k IH | c1 c2 k IH]; intros w Hq;
    simpl in *; auto.
  destruct (IH (perform a w)) as [Hf Hp].
  - destruct a; auto; contradiction.
  - rewrite Hf. split; [| exact Hp].
    apply perform_keeps_flag. destruct a; auto.
Qed.

(** A continuation of [bookSlot], resumed when the flag is [f0], parks again
    with the flag still [f0], or ends with the flag [false] and no slot
    marked. *)
Lemma advance_closing : forall p last lastId w f0,
  closing last lastId p ->
  match last with
  | Some v => bookingInProgress (st w) = v
  | None => bookingInProgress (st w) = f0
  end ->
  match lastId with
  | Some o => bookingSlotId (st w) = o
  | None => True
  end ->
  match snd (advance p w) with
  | None => bookingInProgress (st (fst (advance p w))) = false
            /\ bookingSlotId (st (fst (advance p w))) = None
  | Some _ => bookingInProgress (st (fst (advance p w))) = f0
  end
  /\ closing_parked (snd (advance p w)).
Proof.
  induction p as [r | e | a k IH | c k IH | c1 c2 k IH];
    intros last lastId w f0 Hc Hl Hi; simpl in *.
  - destruct Hc as [-> ->]. auto.
  - destruct Hc as [-> ->]. auto.
  - destruct a;
      try (apply (IH last lastId);
           [exact Hc | destruct last; exact Hl | destruct lastId; exact Hi]).
    + apply (IH (Some b) lastId);
        [exact Hc | reflexivity | destruct lastId; exact Hi].
    + apply (IH last (Some o));
        [exact Hc | destruct last; exact Hl | reflexivity].
  - destruct Hc as [-> Hc]. auto.
  - destruct Hc as [-> Hc]. auto.
Qed.

(** *** The two operations, parked for the first time *)

Lemma loadAvailableSlots_parks : forall mentorId now w,
  exists k,
    advance (loadAvailableSlots mentorId now) w
      = (issue (Select (slotQuery mentorId now)) w,
         Some (OnOne (Select (slotQuery mentorId now)) k))
    /\ forall r, quiet (k r).
Proof.
  intros mentorId now w. eexists. split; [reflexivity |].
  intros [r | e]; settle_cases.
Qed.

Lemma bookSlot_parks : forall mentorId gigTitle cb slotId startTime w,
  exists k,
    advance (bookSlot mentorId gigTitle cb slotId startTime) w
      = (issue AuthGetUser (entered slotId w), Some (OnOne AuthGetUser k))
    /\ forall r, closing None None (k r).
Proof.
  intros mentorId gigTitle cb slotId startTime w.
  eexists. split; [reflexivity |].
  intros r. settle_cases.
Qed.

(** *** The pool *)

Lemma replaceAt_parts : forall (l : list task) n t now,
  nth_error l n = Some t ->
  exists l1 l2, l = l1 ++ t :: l2 /\ replaceAt n now l = l1 ++ now ++ l2.
Proof.
  unfold replaceAt.
  induction l as [| x l IH]; intros [| n] t now H; simpl in *;
    try discriminate.
  - injection H as <-. exists [], l. auto.
  - destruct (IH n t now H) as (l1 & l2 & -> & E).
    exists (x :: l1), l2. simpl. rewrite <- E. auto.
Qed.

Lemma pool_member : forall (P : task -> Prop) l n t,
  Forall P l -> nth_error l n = Some t -> P t.
Proof.
  intros P l n t Hl Hn.
  apply (proj1 (Forall_forall P l) Hl). eapply nth_error_In. exact Hn.
Qed.

Lemma replaceAt_Forall : forall (P : task -> Prop) l n t now,
  nth_error l n = Some t ->
  Forall P l -> Forall P now -> Forall P (replaceAt n now l).
Proof.
  intros P l n t now Hn Hl Hnow.
  destruct (@replaceAt_parts l n t now Hn) as (l1 & l2 & Hparts & ->).
  rewrite Hparts in Hl. apply Forall_app in Hl. destruct Hl as [H1 H2].
  inversion H2; subst.
  apply Forall_app. split; [exact H1 |].
  apply Forall_app. split; assumption.
Qed.

Lemma count_app : forall (f : task -> bool) l1 l2,
  length (filter f (l1 ++ l2)) = length (filter f l1) + length (filter f l2).
Proof. intros. rewrite filter_app, length_app. reflexivity. Qed.

Lemma count_spawn_booking : forall t t',
  length (filter isBooking (spawn (source t) t')) =
  match isBooking t, t' with
  | true, Some _ => 1
  | _, _ => 0
  end.
Proof.
  intros t [t' |]; unfold isBooking; simpl; destruct (source t); reflexivity.
Qed.

Lemma rpcs_are_bookings : forall l,
  Forall disciplined l ->
  length (filter awaitsRpc l) <= length (filter isBooking l).
Proof.
  induction 1 as [| t l Ht _ IH]; simpl; [lia |].
  unfold awaitsRpc, isBooking, disciplined in *.
  destruct (source t), (parked t) as [[] k | c1 c2 g1 g2 k]; simpl in *;
    try lia; tauto.
Qed.

(** What a parked invocation turns into when a settlement reaches it. *)
Lemma receive_disciplined : forall t a f,
  disciplined t ->
  receive (parked t) a = Some f ->
  match f with
  | Resumed p =>
      (source t = FromLoad -> quiet p)
      /\ (forall slotId, source t = FromBook slotId -> closing None None p)
  | Held t' => disciplined {| source := source t; parked := t' |}
  end.
Proof.
  unfold disciplined. intros t a f Hd Hf. simpl.
  destruct (parked t) as [c k | c1 c2 g1 g2 k], a as [x | second x];
    simpl in Hf; try discriminate.
  - destruct (deliver c x); simpl in Hf; [| discriminate].
    injection Hf as <-. destruct (source t); split; try discriminate;
      intros; try apply Hd.
  - destruct second.
    + destruct g2; [discriminate |].
      destruct (deliver c2 x) as [[v2 | e] |]; [| | discriminate];
        injection Hf as <-; [destruct g1 |];
        destruct (source t); simpl; try split; try discriminate;
        intros; try apply Hd.
    + destruct g1; [discriminate |].
      destruct (deliver c1 x) as [[v1 | e] |]; [| | discriminate];
        injection Hf as <-; [destruct g2 |];
        destruct (source t); simpl; try split; try discriminate;
        intros; try apply Hd.
Qed.

Lemma spawn_load : forall t,
  quietly_parked t -> Forall disciplined (spawn FromLoad t).
Proof.
  intros [[c k | c1 c2 g1 g2 k] |] H; simpl; constructor; auto.
Qed.

Lemma spawn_book : forall slotId t,
  closing_parked t -> Forall disciplined (spawn (FromBook slotId) t).
Proof.
  intros slotId [[c k | c1 c2 g1 g2 k] |] H; simpl; constructor; auto.
Qed.

(** Resuming a parked invocation: the flag and the pool after. *)
Lemma settle_disciplined : forall t p w,
  disciplined t ->
  (source t = FromLoad -> quiet p) ->
  (forall slotId, source t = FromBook slotId -> closing None None p) ->
  Forall disciplined (spawn (source t) (snd (advance p w)))
  /\ (isBooking t = false ->
      bookingInProgress (st (fst (advance p w))) = bookingInProgress (st w))
  /\ (isBooking t = true ->
      match snd (advance p w) with
      | None => bookingInProgress (st (fst (advance p w))) = false
                /\ bookingSlotId (st (fst (advance p w))) = None
      | Some _ => bookingInProgress (st (fst (advance p w)))
                  = bookingInProgress (st w)
      end).
Proof.
  intros t p w Hd Hl Hb. unfold isBooking.
  destruct (source t) as [| slotId] eqn:Hs.
  - destruct (@advance_quiet p w (Hl eq_refl)) as [Hf Hp].
    split; [apply spawn_load; exact Hp |].
    split; [auto | discriminate].
  - destruct (@advance_closing p None None w (bookingInProgress (st w))
                (Hb slotId eq_refl) eq_refl I) as [Hf Hp].
    split; [apply spawn_book; exact Hp |].
    split; [discriminate | auto].
Qed.

Section Loop.

Variable gigTitle : string.
Variable cb : settled unit.

Lemma dispatch_Render : forall mayBook m now s,
  dispatch gigTitle cb mayBook (Render m now) s =
  if optEqb (mentor s) m then None
  else
    let (w, t) := advance (loadAvailableSlots m now) (world s) in
    Some {| mentor := Some m; world := w;
            pool := pool s ++ spawn FromLoad t |}.
Proof. reflexivity. Qed.

Lemma dispatch_Click : forall mayBook slot s,
  dispatch gigTitle cb mayBook (Click slot) s =
  match mentor s with
  | Some m =>
      if shown (st (world s)) slot && mayBook (st (world s)) then
        let (w, t) :=
          advance (bookSlot m gigTitle cb (TimeSlot.id slot)
                            (TimeSlot.start_time slot)) (world s) in
        Some {| mentor := mentor s; world := w;
                pool := pool s ++ spawn (FromBook (TimeSlot.id slot)) t |}
      else None
  | None => None
  end.
Proof. reflexivity. Qed.

Lemma dispatch_Settle : forall mayBook n xs s,
  dispatch gigTitle cb mayBook (Settle n xs) s =
  match nth_error (pool s) n with
  | Some t =>
      match feed (parked t) xs with
      | Some p =>
          let (w, t') := advance p (world s) in
          Some {| mentor := mentor s; world := w;
                  pool := replaceAt n (spawn (source t) t') (pool s) |}
      | None => None
      end
  | None => None
  end.
Proof. reflexivity. Qed.

(** Every settlement is an arrival at the invocation it is for: that is
    resumed and runs its next stretch, or it is held at its
    [Promise.all]. *)
Lemma dispatch_settlement : forall mayBook i n s s',
  settles i = Some n ->
  dispatch gigTitle cb mayBook i s = Some s' ->
  exists t a f,
    nth_error (pool s) n = Some t
    /\ receive (parked t) a = Some f
    /\ s' = match f with
            | Resumed p =>
                {| mentor := mentor s;
                   world := fst (advance p (world s));
                   pool := replaceAt n
                             (spawn (source t) (snd (advance p (world s))))
                             (pool s) |}
            | Held t' =>
                {| mentor := mentor s; world := world s;
                   pool := replaceAt n (spawn (source t) (Some t'))
                                     (pool s) |}
            end.
Proof.
  intros mayBook [m now | slot | k xs | k second x] n s s' Hi H;
    simpl in Hi; try discriminate; injection Hi as ->; simpl in H;
    destruct (nth_error (pool s) n) as [t |] eqn:Hn; try discriminate;
    exists t.
  - destruct (feed (parked t) xs) as [p |] eqn:Hf; [| discriminate].
    assert (Hx : exists x, xs = [x]).
    { destruct (parked t), xs as [| x [| x2 xs]]; try discriminate.
      exists x. reflexivity. }
    destruct Hx as [x ->].
    exists (Sole x), (Resumed p). simpl. rewrite Hf.
    destruct (advance p (world s)) as [w t'].
    injection H as <-. auto.
  - exists (Member second x). simpl.
    destruct (feedMember (parked t) second x) as [[p | t'] |];
      [| | discriminate].
    + exists (Resumed p). destruct (advance p (world s)) as [w t'].
      injection H as <-. auto.
    + exists (Held t'). injection H as <-. auto.
Qed.

(** Whoever decides on the clicks, the parked invocations are continuations
    of the two operations. *)
Lemma dispatch_disciplined : forall mayBook i s s',
  Forall disciplined (pool s) ->
  dispatch gigTitle cb mayBook i s = Some s' ->
  Forall disciplined (pool s').
Proof.
  intros mayBook i s s' Hp H.
  destruct (settles i) as [n |] eqn:Hi.
  - destruct (@dispatch_settlement mayBook i n s s' Hi H)
      as (t & a & f & Hn & Hf & ->).
    pose proof (@pool_member _ (pool s) n t Hp Hn) as Ht.
    pose proof (@receive_disciplined t a f Ht Hf) as Hr.
    destruct f as [p | t']; cbn [pool];
      apply (@replaceAt_Forall _ (pool s) n t _ Hn Hp).
    + destruct Hr as [Hl Hb].
      apply (@settle_disciplined t p (world s) Ht Hl Hb).
    + simpl. constructor; [exact Hr | constructor].
  - destruct i as [m now | slot | k xs | k second x]; try discriminate;
      rewrite ?dispatch_Render, ?dispatch_Click in H.
    + destruct (optEqb (mentor s) m); [discriminate |].
      destruct (loadAvailableSlots_parks m now (world s)) as (k & Ha & Hk).
      rewrite Ha in H. injection H as <-. simpl.
      apply Forall_app. split; [exact Hp |].
      constructor; [| constructor]. split; [exact I | exact Hk].
    + destruct (mentor s) as [m |]; [| discriminate].
      destruct (shown (st (world s)) slot && mayBook (st (world s)));
        [| discriminate].
      destruct (bookSlot_parks m gigTitle cb (TimeSlot.id slot)
                  (TimeSlot.start_time slot) (world s)) as (k & Ha & Hk).
      rewrite Ha in H. injection H as <-. simpl.
      apply Forall_app. split; [exact Hp |].
      constructor; [| constructor]. exact Hk.
Qed.

Lemma exec_disciplined : forall mayBook inputs s s',
  Forall disciplined (pool s) ->
  exec gigTitle cb mayBook inputs s = Some s' ->
  Forall disciplined (pool s').
Proof.
  induction inputs as [| i inputs IH]; intros s s' Hs H; simpl in H.
  - congruence.
  - destruct (dispatch gigTitle cb mayBook i s) as [s1 |] eqn:Hd;
      [| discriminate].
    eapply IH; [| exact H]. eapply dispatch_disciplined; eauto.
Qed.

(** In the event loop too, whatever else is in flight: the settlement that
    ends an invocation of [bookSlot] leaves [bookingInProgress] at [false]
    and [bookingSlotId] at [null]. *)
Lemma booking_end_clears : forall mayBook inputs s i n t s',
  exec gigTitle cb mayBook inputs unmounted = Some s ->
  settles i = Some n ->
  nth_error (pool s) n = Some t ->
  isBooking t = true ->
  dispatch gigTitle cb mayBook i s = Some s' ->
  length (pool s') < length (pool s) ->
  bookingInProgress (st (world s')) = false
  /\ bookingSlotId (st (world s')) = None.
Proof.
  intros mayBook inputs s i n t s' Hr Hi Hn Hk H Hlen.
  assert (Hp : Forall disciplined (pool s)).
  { eapply exec_disciplined; [| exact Hr]. constructor. }
  destruct (@dispatch_settlement mayBook i n s s' Hi H)
    as (t0 & a & f & Hn0 & Hf & ->).
  rewrite Hn in Hn0. injection Hn0 as <-.
  pose proof (@pool_member _ (pool s) n t Hp Hn) as Ht.
  pose proof (@receive_disciplined t a f Ht Hf) as Hd.
  destruct f as [p | t']; cbn [pool world] in *.
  - destruct (@replaceAt_parts (pool s) n t
                (spawn (source t) (snd (advance p (world s)))) Hn)
      as (l1 & l2 & Hparts & Hnew).
    rewrite Hnew, Hparts in Hlen.
    destruct Hd as [Hl Hb].
    destruct (@settle_disciplined t p (world s) Ht Hl Hb) as (_ & _ & Hc).
    specialize (Hc Hk).
    destruct (snd (advance p (world s))) as [t' |]; [| exact Hc].
    rewrite !length_app in Hlen. simpl in Hlen. lia.
  - destruct (@replaceAt_parts (pool s) n t
                (spawn (source t) (Some t')) Hn)
      as (l1 & l2 & Hparts & Hnew).
    rewrite Hnew, Hparts in Hlen.
    rewrite !length_app in Hlen. simpl in Hlen. lia.
Qed.

(** A caller that books only while the flag is down keeps bookings one at a
    time. *)
Lemma dispatch_serialised : forall i s s',
  serialised s ->
  dispatch gigTitle cb whenIdle i s = Some s' ->
  serialised s'.
Proof.
  intros i s s' [Hp H1 H0] H.
  pose proof (@dispatch_disciplined whenIdle i s s' Hp H) as Hp'.
  unfold bookings_in_flight, busy in *.
  destruct (settles i) as [n |] eqn:Hi.
  - destruct (@dispatch_settlement whenIdle i n s s' Hi H)
      as (t & a & f & Hn & Hf & ->).
    pose proof (@pool_member _ (pool s) n t Hp Hn) as Ht.
    pose proof (@receive_disciplined t a f Ht Hf) as Hd.
    destruct f as [p | t']; cbn [pool world] in *.
    + destruct (@replaceAt_parts (pool s) n t
                  (spawn (source t) (snd (advance p (world s)))) Hn)
        as (l1' & l2' & Hparts' & Hnew).
      destruct Hd as [Hl Hb].
      destruct (@settle_disciplined t p (world s) Ht Hl Hb)
        as (_ & Hq & Hc).
      rewrite Hparts' in H1, H0.
      rewrite count_app in H1, H0. cbn [filter] in H1, H0.
      constructor; [exact Hp' | |];
        unfold bookings_in_flight, busy; cbn [pool world];
        rewrite ?Hnew, !count_app, count_spawn_booking;
        destruct (isBooking t), (snd (advance p (world s))) as [t' |];
        cbn [length] in *; try lia.
      * intro Hw. rewrite (Hc eq_refl) in Hw. specialize (H0 Hw). lia.
      * intro Hw. rewrite (Hq eq_refl) in Hw. specialize (H0 Hw). lia.
      * intro Hw. rewrite (Hq eq_refl) in Hw. specialize (H0 Hw). lia.
    + destruct (@replaceAt_parts (pool s) n t
                  (spawn (source t) (Some t')) Hn)
        as (l1' & l2' & Hparts' & Hnew).
      rewrite Hparts' in H1, H0.
      rewrite count_app in H1, H0. cbn [filter] in H1, H0.
      constructor; [exact Hp' | |];
        unfold bookings_in_flight, busy; cbn [pool world];
        rewrite ?Hnew, !count_app, count_spawn_booking;
        destruct (isBooking t); cbn [length] in *; try lia.
      * intro Hw. specialize (H0 Hw). lia.
      * intro Hw. specialize (H0 Hw). lia.
  - destruct i as [m now | slot | k xs | k second x]; try discriminate;
      rewrite ?dispatch_Render, ?dispatch_Click in H.
    + destruct (optEqb (mentor s) m); [discriminate |].
      destruct (loadAvailableSlots_parks m now (world s)) as (k & Ha & Hk).
      rewrite Ha in H. injection H as <-.
      constructor; unfold bookings_in_flight, busy; simpl in *;
        rewrite ?count_app; simpl; auto; try lia.
      intro Hf. rewrite (H0 Hf). reflexivity.
    + destruct (mentor s) as [m |]; [| discriminate].
      unfold whenIdle in H.
      destruct (shown (st (world s)) slot); cbn [andb] in H;
        [| discriminate].
      destruct (bookingInProgress (st (world s))) eqn:Hb; cbn [negb] in H;
        [discriminate |].
      destruct (bookSlot_parks m gigTitle cb (TimeSlot.id slot)
                  (TimeSlot.start_time slot) (world s)) as (k & Ha & Hk).
      rewrite Ha in H. injection H as <-.
      constructor; unfold bookings_in_flight, busy; simpl in *;
        rewrite ?count_app; simpl; auto.
      * rewrite (H0 eq_refl). simpl. lia.
      * discriminate.
Qed.

Lemma exec_serialised : forall inputs s s',
  serialised s ->
  exec gigTitle cb whenIdle inputs s = Some s' ->
  serialised s'.
Proof.
  induction inputs as [| i inputs IH]; intros s s' Hs H; simpl in H.
  - congruence.
  - destruct (dispatch gigTitle cb whenIdle i s) as [s1 |] eqn:Hd;
      [| discriminate].
    eapply IH; [| exact H]. eapply dispatch_serialised; eauto.
Qed.

End Loop.

Lemma unmounted_serialised : serialised unmounted.
Proof. constructor; simpl; auto. Qed.

(** *** One booking at a time *)

(** C1, as the code has it.  The flag serialises bookings only for a caller
    that consults it: if [bookSlot] is invoked only while [bookingInProgress]
    is [false], then in every reachable state at most one invocation of
    [bookSlot] is unresolved and at most one call of the booking procedure is
    in flight.  [bookSlot] itself never looks at the flag: in any such state
    and on any shown row, whatever the flag, the component as written starts
    a further invocation, which raises the flag and takes over
    [bookingSlotId]. *)
Theorem bookings_serialised_by_caller :
  forall gigTitle onBookingComplete inputs s,
    exec gigTitle onBookingComplete whenIdle inputs unmounted = Some s ->
    bookings_in_flight s <= 1
    /\ rpcs_in_flight s <= 1
    /\ (forall m slot,
          mentor s = Some m ->
          shown (st (world s)) slot = true ->
          exists s',
            dispatch gigTitle onBookingComplete always (Click slot) s
              = Some s'
            /\ bookings_in_flight s' = S (bookings_in_flight s)
            /\ busy s' = true
            /\ bookingSlotId (st (world s')) = Some (TimeSlot.id slot)).
Proof.
  intros gigTitle cb inputs s H.
  destruct (@exec_serialised gigTitle cb inputs unmounted s
              unmounted_serialised H) as [Hp H1 _].
  split; [exact H1 |]. split.
  - unfold rpcs_in_flight.
    apply Nat.le_trans with (2 := H1). apply rpcs_are_bookings. exact Hp.
  - intros m slot Hm Hs.
    rewrite dispatch_Click, Hm, Hs. simpl andb. cbv iota.
    destruct (bookSlot_parks m gigTitle cb (TimeSlot.id slot)
                (TimeSlot.start_time slot) (world s)) as (k & -> & _).
    eexists. split; [reflexivity |].
    unfold bookings_in_flight, busy. simpl.
    rewrite count_app. simpl. split; [lia | auto].
Qed.

Lemma bookings_serialised_by_caller_witness :
  exec "Algebra" (Fulfilled tt) whenIdle bookingA unmounted
    = Some awaitingRpc
  /\ bookings_in_flight awaitingRpc <= 1
  /\ rpcs_in_flight awaitingRpc <= 1.
Proof.
  assert (E : exec "Algebra" (Fulfilled tt) whenIdle bookingA unmounted
              = Some awaitingRpc)
    by (vm_compute; reflexivity).
  split; [exact E |].
  destruct (@bookings_serialised_by_caller "Algebra" (Fulfilled tt)
              bookingA awaitingRpc E)
    as (H1 & H2 & _).
  split; [exact H1 | exact H2].
Defined.

(** The component as written does not reject the second attempt: with the
    booking of [s1] awaiting the booking procedure and the flag up, a click
    on [s2] goes through, and two calls of the procedure are in flight. *)
Lemma second_booking_not_rejected :
  option_map (fun s => (busy s, bookingSlotId (st (world s)),
                        isLoading (renderRow (st (world s)) s2),
                        rpcs_in_flight s))
             (exec "Algebra" (Fulfilled tt) always bookingA unmounted)
  = Some (true, Some "s1", false, 1)
  /\ option_map (fun s => (busy s, bookingSlotId (st (world s)),
                           rpcs_in_flight s,
                           issued_rpcs (history (world s))))
                (exec "Algebra" (Fulfilled tt) always bookingAB unmounted)
     = Some (true, Some "s2", 2,
             [("book_time_slot", mkBookArgs "s1" "u1" "m1");
              ("book_time_slot", mkBookArgs "s2" "u1" "m1")])
  /\ ~ (forall s, reachable "Algebra" (Fulfilled tt) always s ->
                  rpcs_in_flight s <= 1).
Proof.
  split; [reflexivity |]. split; [reflexivity |].
  intro H.
  destruct (exec "Algebra" (Fulfilled tt) always bookingAB unmounted)
    as [s |] eqn:E.
  - assert (Hn : rpcs_in_flight s = 2).
    { vm_compute in E. injection E as <-. reflexivity. }
    specialize (H s (ex_intro _ bookingAB E)). lia.
  - vm_compute in E. discriminate E.
Qed.

(** ** Instances *)

Lemma bookSlot_success_completes_once_witness :
  prepared (backend true) "m1" "s1" student studentProfile mentorProfile
  /\ completions
       (fst (run (backend true)
               (bookSlot "m1" "Algebra" (Fulfilled tt) "s1"
                         "2025-01-10T10:00Z")
               initialWorld)) = 0 + 1
  /\ error
       (st (fst (run (backend true)
                   (bookSlot "m1" "Algebra" (Fulfilled tt) "s1"
                             "2025-01-10T10:00Z")
                   initialWorld))) = ""
  /\ exists s',
       dispatch "Algebra" (Fulfilled tt) whenIdle
                (Settle 0 [OfEmail (Fulfilled (mkEmailResult true
                                                             JUndefined))])
                awaitingMailer = Some s'
       /\ completions (world s') = 0 + 1
       /\ error (st (world s')) = "Failed to load available time slots".
Proof.
  assert (Hp : prepared (backend true) "m1" "s1" student studentProfile
                        mentorProfile)
    by (econstructor; reflexivity).
  split; [exact Hp |].
  destruct (@bookSlot_success_completes_once (backend true) "m1" "Algebra"
              "s1" "2025-01-10T10:00Z" student studentProfile mentorProfile
              (mkEmailResult true JUndefined) false initialWorld
              Hp eq_refl eq_refl)
    as (_ & Hloop & H1 & H2 & _).
  split; [exact H1 |]. split; [exact H2 |].
  destruct (Hloop whenIdle awaitingMailer 0
              (mkTask (FromBook "s1")
                      (match pool awaitingMailer with
                       | t :: _ => parked t
                       | [] => OnOne AuthGetUser (fun _ => Ret tt)
                       end))
              eq_refl eq_refl)
    as (s' & Hd & Hc & He & _).
  exists s'. split; [exact Hd |]. split; [exact Hc | exact He].
Defined.

Lemma bookSlot_email_failure_tolerated_witness :
  prepared (backend false) "m1" "s1" student studentProfile mentorProfile
  /\ completions
       (fst (run (backend false)
               (bookSlot "m1" "Algebra" (Fulfilled tt) "s1"
                         "2025-01-10T10:00Z")
               initialWorld)) = 0 + 1
  /\ error
       (st (fst (run (backend false)
                   (bookSlot "m1" "Algebra" (Fulfilled tt) "s1"
                             "2025-01-10T10:00Z")
                   initialWorld))) = ""
  /\ console
       (fst (run (backend false)
               (bookSlot "m1" "Algebra" (Fulfilled tt) "s1"
                         "2025-01-10T10:00Z")
               initialWorld))
     = [LogWarn "Emails may not have been sent successfully:"
                (JStr "SMTP down")].
Proof.
  assert (Hp : prepared (backend false) "m1" "s1" student studentProfile
                        mentorProfile)
    by (econstructor; reflexivity).
  split; [exact Hp |].
  destruct (@bookSlot_email_failure_tolerated (backend false) "m1" "Algebra"
              "s1" "2025-01-10T10:00Z" student studentProfile mentorProfile
              (mkEmailResult false (JStr "SMTP down")) true initialWorld
              Hp eq_refl eq_refl)
    as (_ & _ & H1 & H2 & _ & H4).
  split; [exact H1 |]. split; [exact H2 | exact H4].
Defined.

Lemma bookSlot_unauthenticated_witness :
  getUser anonymousBackend = Fulfilled (mkAuth None)
  /\ error
       (st (fst (run anonymousBackend
                   (bookSlot "m1" "Algebra" (Fulfilled tt) "s1"
                             "2025-01-10T10:00Z")
                   initialWorld))) = "Not authenticated".
Proof.
  split; [reflexivity |].
  exact (proj1 (proj2 (@bookSlot_unauthenticated anonymousBackend "m1"
                         "Algebra" (Fulfilled tt) "s1" "2025-01-10T10:00Z"
                         initialWorld eq_refl))).
Defined.

(** Three failures: a slot that was taken, whose message is shown; an error
    of the booking procedure without a message, for which the fallback is
    shown; two failing profile fetches, of which the one that failed first
    is shown. *)
Lemma bookSlot_failure_reported_witness :
  (booking_failure takenBackend "m1" "s1" (Error "Failed to book the slot")
   /\ banner
        (render
           (st (fst (run takenBackend
                       (bookSlot "m1" "Algebra" (Fulfilled tt) "s1"
                                 "2025-01-10T10:00Z")
                       initialWorld))))
      = Some "Failed to book the slot")
  /\ (booking_failure mutedBackend "m1" "s1" (Error "")
      /\ error
           (st (fst (run mutedBackend
                       (bookSlot "m1" "Algebra" (Fulfilled tt) "s1"
                                 "2025-01-10T10:00Z")
                       initialWorld)))
         = "Failed to book the session. Please try again."
      /\ banner
           (render
              (st (fst (run mutedBackend
                          (bookSlot "m1" "Algebra" (Fulfilled tt) "s1"
                                    "2025-01-10T10:00Z")
                          initialWorld))))
         = Some "Failed to book the session. Please try again.")
  /\ (booking_failure profilesDownBackend "m1" "s1" (Error "mentor down")
      /\ error
           (st (fst (run profilesDownBackend
                       (bookSlot "m1" "Algebra" (Fulfilled tt) "s1"
                                 "2025-01-10T10:00Z")
                       initialWorld)))
         = "mentor down").
Proof.
  assert (H1 : booking_failure takenBackend "m1" "s1"
                 (Error "Failed to book the slot"))
    by (eapply rpc_falsy; reflexivity).
  assert (H2 : booking_failure mutedBackend "m1" "s1" (Error ""))
    by (eapply rpc_fails; reflexivity).
  assert (H3 : booking_failure profilesDownBackend "m1" "s1"
                 (Error "mentor down"))
    by (eapply profiles_throw; reflexivity).
  split; [split; [exact H1 |] | split; [split; [exact H2 |] |
                                        split; [exact H3 |]]].
  - destruct (@bookSlot_failure_reported takenBackend "m1" "Algebra"
                (Fulfilled tt) "s1" "2025-01-10T10:00Z"
                (Error "Failed to book the slot") initialWorld H1)
      as (_ & _ & Hm & _).
    apply Hm. discriminate.
  - destruct (@bookSlot_failure_reported mutedBackend "m1" "Algebra"
                (Fulfilled tt) "s1" "2025-01-10T10:00Z"
                (Error "") initialWorld H2)
      as (_ & _ & _ & Hm & _).
    apply Hm. reflexivity.
  - destruct (@bookSlot_failure_reported profilesDownBackend "m1" "Algebra"
                (Fulfilled tt) "s1" "2025-01-10T10:00Z"
                (Error "mentor down") initialWorld H3)
      as (_ & _ & Hm & _).
    apply Hm. discriminate.
Defined.

(** A slot that was taken: the attempt fails, its promise is fulfilled and
    the booking cells are lowered. *)
Lemma bookSlot_always_clears_witness :
  snd (run takenBackend
         (bookSlot "m1" "Algebra" (Fulfilled tt) "s1" "2025-01-10T10:00Z")
         initialWorld) = Returned tt
  /\ bookingInProgress
       (st (fst (run takenBackend
                   (bookSlot "m1" "Algebra" (Fulfilled tt) "s1"
                             "2025-01-10T10:00Z")
                   initialWorld))) = false.
Proof.
  destruct (@bookSlot_always_clears takenBackend "m1" "Algebra"
              (Fulfilled tt) "s1" "2025-01-10T10:00Z" initialWorld)
    as (H1 & H2 & _).
  split; [apply H1; discriminate | exact H2].
Defined.

Lemma loadAvailableSlots_query_witness :
  selectRows (backend true) (slotQuery "m1" "2025-01-01T00:00Z")
    = Fulfilled (mkRows (Some [s1; s2]) None)
  /\ slots
       (st (fst (run (backend true)
                   (loadAvailableSlots "m1" "2025-01-01T00:00Z")
                   initialWorld))) = [s1; s2].
Proof.
  split; [reflexivity |].
  exact (proj1 (proj2 (proj2 (@loadAvailableSlots_query (backend true) "m1"
                                "2025-01-01T00:00Z" initialWorld
                                (mkRows (Some [s1; s2]) None) [s1; s2]
                                eq_refl eq_refl eq_refl)))).
Defined.

Lemma loadAvailableSlots_none_witness :
  selectRows (slotsBackend (Fulfilled (mkRows (Some []) None)))
             (slotQuery "m1" "2025-01-01T00:00Z")
    = Fulfilled (mkRows (Some []) None)
  /\ body
       (render
          (st (fst (run (slotsBackend (Fulfilled (mkRows (Some []) None)))
                      (loadAvailableSlots "m1" "2025-01-01T00:00Z")
                      initialWorld))))
     = Message "No available time slots".
Proof.
  split; [reflexivity |].
  exact (proj2 (proj2 (@loadAvailableSlots_none
                         (slotsBackend (Fulfilled (mkRows (Some []) None)))
                         "m1" "2025-01-01T00:00Z" initialWorld
                         (mkRows (Some []) None) eq_refl eq_refl eq_refl))).
Defined.

Lemma loadAvailableSlots_failure_witness :
  load_failure (slotsBackend (Rejected (Error "Failed to fetch")))
               (slotQuery "m1" "2025-01-01T00:00Z") (Error "Failed to fetch")
  /\ slots (st initialWorld) = []
  /\ error
       (st (fst (run (slotsBackend (Rejected (Error "Failed to fetch")))
                   (loadAvailableSlots "m1" "2025-01-01T00:00Z")
                   initialWorld)))
     = "Failed to load available time slots"
  /\ slots
       (st (fst (run (slotsBackend (Rejected (Error "Failed to fetch")))
                   (loadAvailableSlots "m1" "2025-01-01T00:00Z")
                   initialWorld))) = [].
Proof.
  assert (Hf : load_failure (slotsBackend (Rejected (Error "Failed to fetch")))
                 (slotQuery "m1" "2025-01-01T00:00Z")
                 (Error "Failed to fetch"))
    by (apply load_throws; reflexivity).
  split; [exact Hf |]. split; [reflexivity |].
  destruct (@loadAvailableSlots_failure _ "m1" "2025-01-01T00:00Z"
              initialWorld _ Hf) as (H1 & _ & _ & _ & _ & H6).
  split; [exact H1 | exact (H6 eq_refl)].
Defined.

(** * Further properties *)

(** ** What a booking attempt asks of the backend *)

Lemma requests_app : forall h1 h2,
  requests (h1 ++ h2) = requests h1 ++ requests h2.
Proof.
  induction h1 as [| [a | c] h1 IH]; intro h2; simpl; rewrite ?IH; auto.
Qed.

Lemma issued_mails_app : forall h1 h2,
  issued_mails (h1 ++ h2) = issued_mails h1 ++ issued_mails h2.
Proof.
  induction h1 as [| [a | []] h1 IH]; intro h2; simpl; rewrite ?IH; auto.
Qed.


Lemma issued_rpcs_perform : forall a w,
  issued_rpcs (history (perform a w)) = issued_rpcs (history w).
Proof.
  intros a w. simpl. rewrite issued_rpcs_app. simpl. apply app_nil_r.
Qed.

Lemma issued_mails_perform : forall a w,
  issued_mails (history (perform a w)) = issued_mails (history w).
Proof.
  intros a w. simpl. rewrite issued_mails_app. simpl. apply app_nil_r.
Qed.



Lemma issued_rpcs_closed : forall e w,
  issued_rpcs (history (cleared (reported e w))) = issued_rpcs (history w).
Proof.
  intros [e |] w; unfold cleared, reported; rewrite !issued_rpcs_perform;
    reflexivity.
Qed.

Lemma issued_mails_closed : forall e w,
  issued_mails (history (cleared (reported e w)))
  = issued_mails (history w).
Proof.
  intros [e |] w; unfold cleared, reported; rewrite !issued_mails_perform;
    reflexivity.
Qed.

Lemma rpc_due_prepared : forall b mentorId slotId user sp mp,
  prepared b mentorId slotId user sp mp ->
  rpc_due b mentorId slotId =
  [("book_time_slot", mkBookArgs slotId (User.id user) mentorId)].
Proof.
  intros b mentorId slotId user sp mp [r student mentor Hu _ _ _ _ _ _ _].
  unfold rpc_due. rewrite Hu. reflexivity.
Qed.

(** A failure of steps 1 to 3 leaves the [try] block before any mail is
    asked for; the booking procedure was called if a user was signed in. *)
Lemma bookSlot_try_failure_asks :
  forall b mentorId gigTitle cb slotId startTime e w,
    booking_failure b mentorId slotId e ->
    issued_mails
      (history (fst (run b (bookSlot_try mentorId gigTitle cb slotId
                                         startTime) w)))
      = issued_mails (history w)
    /\ issued_rpcs
         (history (fst (run b (bookSlot_try mentorId gigTitle cb slotId
                                            startTime) w)))
       = issued_rpcs (history w) ++ rpc_due b mentorId slotId.
Proof.
  intros b mentorId gigTitle cb slotId startTime e w H.
  unfold bookSlot_try, await, await_all, rpc_due.
  destruct H as [e Hu | Hu | user e Hu Hr | user r e Hu Hr Hre
                 | user r Hu Hr Hre Hrd | user r e Hu Hr Hre Hrd Hp
                 | user r sp mp Hu Hr Hre Hrd Hs Hm Hd];
    simpl; rewrite Hu; simpl;
    try (rewrite Hr; simpl);
    try (rewrite Hre; simpl);
    try (rewrite Hrd; simpl);
    try (rewrite Hp; simpl);
    try (rewrite Hs, Hm; simpl);
    try (destruct Hd as [Hd | Hd]; rewrite Hd; [| destruct (single_data sp)];
         simpl);
    rewrite ?issued_mails_app, ?issued_rpcs_app; simpl;
    rewrite ?app_nil_r; auto.
Qed.

(** X1.  An invocation of [bookSlot] calls the booking procedure exactly
    once when [getUser] resolves to a user, with the slot, that user's id and
    the mentor as arguments, and never otherwise: whatever happens later, the
    call is not repeated. *)
Theorem bookSlot_books_once :
  forall b mentorId gigTitle cb slotId startTime w,
    issued_rpcs
      (history (fst (run b (bookSlot mentorId gigTitle cb slotId startTime)
                       w)))
    = issued_rpcs (history w) ++ rpc_due b mentorId slotId.
Proof.
  intros b mentorId gigTitle cb slotId startTime w.
  rewrite run_bookSlot.
  destruct (attempt_cases b mentorId slotId)
    as [[e Hf] | (user & sp & mp & Hp)].
  - destruct (@bookSlot_try_failure_asks b mentorId gigTitle cb slotId
                startTime e (entered slotId w) Hf) as [_ Hr].
    destruct (run b (bookSlot_try mentorId gigTitle cb slotId startTime)
                (entered slotId w)) as [w1 [[] | e']];
      simpl fst in *; rewrite ?issued_rpcs_closed;
      unfold cleared, entered in *;
      rewrite ?issued_rpcs_perform in *; exact Hr.
  - rewrite (rpc_due_prepared Hp).
    destruct (sendBookingEmails b (confirmation gigTitle startTime sp mp))
      as [er | e] eqn:He.
    + rewrite (@bookSlot_try_mailed b mentorId gigTitle cb slotId startTime
                 user sp mp er (entered slotId w) Hp He).
      destruct cb as [[] | e]; simpl fst; rewrite ?issued_rpcs_closed;
        unfold cleared, warned, fetched, entered;
        destruct (success er); rewrite !issued_rpcs_perform; simpl;
        rewrite !issued_rpcs_app; simpl; rewrite ?issued_rpcs_perform;
        rewrite ?app_nil_r; reflexivity.
    + rewrite (@bookSlot_try_mail_rejected b mentorId gigTitle cb slotId
                 startTime user sp mp e (entered slotId w) Hp He).
      simpl fst. rewrite issued_rpcs_closed.
      unfold fetched, entered.
      simpl; rewrite !issued_rpcs_app; simpl;
        rewrite ?app_nil_r; reflexivity.
Qed.

(** X2.  When a booking attempt fails in steps 1 to 3, [bookSlot] asks the
    mailer for nothing: no confirmation goes out for a booking that was not
    made or whose parties could not be looked up. *)
Theorem bookSlot_failure_sends_no_mail :
  forall b mentorId gigTitle cb slotId startTime e w,
    booking_failure b mentorId slotId e ->
    issued_mails
      (history (fst (run b (bookSlot mentorId gigTitle cb slotId startTime)
                       w)))
    = issued_mails (history w).
Proof.
  intros b mentorId gigTitle cb slotId startTime e w Hf.
  rewrite run_bookSlot.
  destruct (@bookSlot_try_failure_asks b mentorId gigTitle cb slotId
              startTime e (entered slotId w) Hf) as [Hm _].
  destruct (run b (bookSlot_try mentorId gigTitle cb slotId startTime)
              (entered slotId w)) as [w1 [[] | e']];
    simpl fst in *; rewrite ?issued_mails_closed;
    unfold cleared, entered in *;
    rewrite ?issued_mails_perform in *; exact Hm.
Qed.

Lemma bookSlot_failure_sends_no_mail_witness :
  booking_failure takenBackend "m1" "s1" (Error "Failed to book the slot")
  /\ issued_mails
       (history (fst (run takenBackend
                        (bookSlot "m1" "Algebra" (Fulfilled tt) "s1"
                                  "2025-01-10T10:00Z")
                        initialWorld)))
     = issued_mails (history initialWorld).
Proof.
  assert (Hf : booking_failure takenBackend "m1" "s1"
                 (Error "Failed to book the slot"))
    by (eapply rpc_falsy; reflexivity).
  split; [exact Hf |].
  exact (@bookSlot_failure_sends_no_mail takenBackend "m1" "Algebra"
           (Fulfilled tt) "s1" "2025-01-10T10:00Z" _ initialWorld Hf).
Defined.



(** X4.  When the mailer's promise is rejected with an error (the call
    throws, rather than reporting [success: false]), the failure is not
    tolerated: although the booking procedure was called and succeeded,
    [bookSlot] shows the error's message when it has one and "Failed to
    book the session. Please try again." when it has none, logs the error,
    and does not invoke [onBookingComplete]. *)
Theorem bookSlot_mailer_rejection_reported :
  forall b mentorId gigTitle cb slotId startTime user sp mp (e : JsError) w,
    prepared b mentorId slotId user sp mp ->
    sendBookingEmails b (confirmation gigTitle startTime sp mp)
      = Rejected e ->
    let w' := fst (run b (bookSlot mentorId gigTitle cb slotId startTime)
                       w) in
    (message e <> "" ->
     error (st w') = message e
     /\ banner (render (st w')) = Some (message e))
    /\ (message e = "" ->
        error (st w') = "Failed to book the session. Please try again."
        /\ banner (render (st w'))
           = Some "Failed to book the session. Please try again.")
    /\ console w' = console w ++ [LogError "Booking error:" e]
    /\ completions w' = completions w
    /\ bookingInProgress (st w') = false
    /\ bookingSlotId (st w') = None
    /\ issued_rpcs (history w') =
         issued_rpcs (history w)
         ++ [("book_time_slot",
              mkBookArgs slotId (User.id user) mentorId)].
Proof.
  intros b mentorId gigTitle cb slotId startTime user sp mp e w Hp He w'.
  subst w'. rewrite run_bookSlot.
  rewrite (@bookSlot_try_mail_rejected b mentorId gigTitle cb slotId
             startTime user sp mp e (entered slotId w) Hp He).
  unfold render. simpl. rewrite !issued_rpcs_app. simpl.
  rewrite !app_nil_r, !Nat.add_0_r. unfold str_or.
  repeat split; auto.
  - apply String.eqb_neq in H. rewrite H. reflexivity.
  - apply String.eqb_neq in H. rewrite !H. reflexivity.
  - rewrite H. reflexivity.
  - rewrite H. reflexivity.
Qed.

(** Two rejections of the mailer: one with a message, which is shown, and
    one without, for which the fallback is shown. *)
Lemma bookSlot_mailer_rejection_reported_witness :
  (prepared mailerDownBackend "m1" "s1" student studentProfile mentorProfile
   /\ sendBookingEmails mailerDownBackend
        (confirmation "Algebra" "2025-01-10T10:00Z" studentProfile
                      mentorProfile)
      = Rejected (Error "Network request failed")
   /\ banner
        (render
           (st (fst (run mailerDownBackend
                       (bookSlot "m1" "Algebra" (Fulfilled tt) "s1"
                                 "2025-01-10T10:00Z")
                       initialWorld))))
      = Some "Network request failed"
   /\ completions
        (fst (run mailerDownBackend
                (bookSlot "m1" "Algebra" (Fulfilled tt) "s1"
                          "2025-01-10T10:00Z")
                initialWorld)) = 0)
  /\ (prepared mailerMuteBackend "m1" "s1" student studentProfile
               mentorProfile
      /\ sendBookingEmails mailerMuteBackend
           (confirmation "Algebra" "2025-01-10T10:00Z" studentProfile
                         mentorProfile)
         = Rejected (Error "")
      /\ error
           (st (fst (run mailerMuteBackend
                       (bookSlot "m1" "Algebra" (Fulfilled tt) "s1"
                                 "2025-01-10T10:00Z")
                       initialWorld)))
         = "Failed to book the session. Please try again."
      /\ banner
           (render
              (st (fst (run mailerMuteBackend
                          (bookSlot "m1" "Algebra" (Fulfilled tt) "s1"
                                    "2025-01-10T10:00Z")
                          initialWorld))))
         = Some "Failed to book the session. Please try again.").
Proof.
  assert (Hp : prepared mailerDownBackend "m1" "s1" student studentProfile
                        mentorProfile)
    by (econstructor; reflexivity).
  assert (Hq : prepared mailerMuteBackend "m1" "s1" student studentProfile
                        mentorProfile)
    by (econstructor; reflexivity).
  split.
  - split; [exact Hp |]. split; [reflexivity |].
    destruct (@bookSlot_mailer_rejection_reported mailerDownBackend "m1"
                "Algebra" (Fulfilled tt) "s1" "2025-01-10T10:00Z" student
                studentProfile mentorProfile
                (Error "Network request failed") initialWorld Hp eq_refl)
      as (H1 & _ & _ & H3 & _).
    split; [apply H1; discriminate | exact H3].
  - split; [exact Hq |]. split; [reflexivity |].
    destruct (@bookSlot_mailer_rejection_reported mailerMuteBackend "m1"
                "Algebra" (Fulfilled tt) "s1" "2025-01-10T10:00Z" student
                studentProfile mentorProfile
                (Error "") initialWorld Hq eq_refl)
      as (_ & H2 & _).
    apply H2. reflexivity.
Defined.

(** ** More on loading *)

(** X6.  Whatever the backend answers, an invocation of
    [loadAvailableSlots] returns with [loading] at [false], having made
    exactly one request, its slot query, without a retry; it leaves
    [bookingInProgress] and [bookingSlotId] alone and never invokes
    [onBookingComplete]. *)
Theorem loadAvailableSlots_always_settles :
  forall b mentorId now w,
    let w' := fst (run b (loadAvailableSlots mentorId now) w) in
    snd (run b (loadAvailableSlots mentorId now) w) = Returned tt
    /\ loading (st w') = false
    /\ requests (history w') =
         requests (history w) ++ [Select (slotQuery mentorId now)]
    /\ bookingInProgress (st w') = bookingInProgress (st w)
    /\ bookingSlotId (st w') = bookingSlotId (st w)
    /\ completions w' = completions w.
Proof.
  intros b mentorId now w w'. subst w'.
  rewrite run_loadAvailableSlots.
  unfold loadAvailableSlots_try, await. simpl.
  change (selectRows b _) with (selectRows b (slotQuery mentorId now)).
  destruct (selectRows b (slotQuery mentorId now)) as [r | e]; simpl;
    [destruct (rows_error r) as [e |]; simpl |];
    rewrite !requests_app; simpl; rewrite !app_nil_r, !Nat.add_0_r;
    auto 10.
Qed.

(** X7.  A successful load replaces the slot list by [data || []] and does
    not touch the error state: an error shown before the load, such as that
    of a failed booking or of an earlier failed load, is still shown after
    it, beside the new list. *)
Theorem loadAvailableSlots_success_keeps_error :
  forall b mentorId now w r,
    selectRows b (slotQuery mentorId now) = Fulfilled r ->
    rows_error r = None ->
    let w' := fst (run b (loadAvailableSlots mentorId now) w) in
    slots (st w') = match rows_data r with Some d => d | None => [] end
    /\ error (st w') = error (st w)
    /\ banner (render (st w')) = banner (render (st w))
    /\ console w' = console w.
Proof.
  intros b mentorId now w r Hq He w'. subst w'.
  rewrite run_loadAvailableSlots.
  unfold loadAvailableSlots_try, await. simpl.
  change (selectRows b _) with (selectRows b (slotQuery mentorId now)).
  rewrite Hq. simpl. rewrite He. simpl. rewrite !app_nil_r. auto.
Qed.

Lemma loadAvailableSlots_success_keeps_error_witness :
  selectRows (backend true) (slotQuery "m1" "2025-01-01T00:00Z")
    = Fulfilled (mkRows (Some [s1; s2]) None)
  /\ banner
       (render
          (st (fst (run (backend true)
                      (loadAvailableSlots "m1" "2025-01-01T00:00Z")
                      (perform (SetError "Not authenticated")
                               initialWorld)))))
     = Some "Not authenticated".
Proof.
  split; [reflexivity |].
  exact (proj1 (proj2 (proj2
           (@loadAvailableSlots_success_keeps_error (backend true) "m1"
              "2025-01-01T00:00Z"
              (perform (SetError "Not authenticated") initialWorld)
              (mkRows (Some [s1; s2]) None) eq_refl eq_refl)))).
Defined.

(** X8.  An answer without an error and without data ([data] is [null])
    counts as an empty one: the slot list becomes empty, whatever it held,
    and "No available time slots" is rendered. *)
Theorem loadAvailableSlots_null_data :
  forall b mentorId now w r,
    selectRows b (slotQuery mentorId now) = Fulfilled r ->
    rows_error r = None ->
    rows_data r = None ->
    let w' := fst (run b (loadAvailableSlots mentorId now) w) in
    slots (st w') = []
    /\ body (render (st w')) = Message "No available time slots".
Proof.
  intros b mentorId now w r Hq He Hd w'. subst w'.
  rewrite run_loadAvailableSlots.
  unfold loadAvailableSlots_try, await. simpl.
  change (selectRows b _) with (selectRows b (slotQuery mentorId now)).
  rewrite Hq. simpl. rewrite He, Hd. simpl. auto.
Qed.

Lemma loadAvailableSlots_null_data_witness :
  selectRows (slotsBackend (Fulfilled (mkRows None None)))
             (slotQuery "m2" "2025-01-01T00:05Z")
    = Fulfilled (mkRows None None)
  /\ slots
       (st (fst (run (slotsBackend (Fulfilled (mkRows None None)))
                   (loadAvailableSlots "m2" "2025-01-01T00:05Z")
                   (perform (SetSlots [s1]) initialWorld)))) = [].
Proof.
  split; [reflexivity |].
  exact (proj1 (@loadAvailableSlots_null_data
                  (slotsBackend (Fulfilled (mkRows None None)))
                  "m2" "2025-01-01T00:05Z"
                  (perform (SetSlots [s1]) initialWorld)
                  (mkRows None None) eq_refl eq_refl eq_refl)).
Defined.

(** ** More on the presentation *)

Lemma no_row_loading : forall s l x,
  bookingSlotId s = Some x ->
  ~ In x (map TimeSlot.id l) ->
  filter isLoading (map (renderRow s) l) = [].
Proof.
  intros s l x Hx. induction l as [| a l IH]; intro Hn; simpl in *; auto.
  rewrite Hx. simpl.
  destruct (String.eqb x (TimeSlot.id a)) eqn:E.
  - apply String.eqb_eq in E. exfalso. apply Hn. left. symmetry. exact E.
  - rewrite andb_false_r. apply IH. intro Hin. apply Hn. right. exact Hin.
Qed.

(** X9.  When the slots on display have pairwise distinct ids, at most one
    row shows the loading indicator, and its key is [bookingSlotId]; with no
    booking in progress no row shows it. *)
Theorem render_one_row_loading :
  forall s,
    NoDup (map TimeSlot.id (slots s)) ->
    length (loading_rows (render s)) <= 1
    /\ (forall row, In row (loading_rows (render s)) ->
                    bookingInProgress s = true
                    /\ bookingSlotId s = Some (key row))
    /\ (bookingInProgress s = false -> loading_rows (render s) = []).
Proof.
  intros s Hnd. unfold loading_rows, render. cbn [body].
  destruct (loading s); [simpl; intuition lia |].
  destruct (Nat.eqb (length (slots s)) 0); [simpl; intuition lia |].
  split; [| split].
  - destruct (bookingSlotId s) as [x |] eqn:Hx.
    + induction (slots s) as [| a l IH]; simpl in *; [lia |].
      inversion Hnd as [| ? ? Hna Hnd']; subst.
      rewrite Hx. simpl.
      destruct (bookingInProgress s && String.eqb x (TimeSlot.id a)) eqn:E.
      * apply andb_true_iff in E. destruct E as [_ E].
        apply String.eqb_eq in E. subst x.
        rewrite (@no_row_loading s l (TimeSlot.id a) Hx Hna). simpl. lia.
      * apply IH. exact Hnd'.
    + clear Hnd. induction (slots s) as [| a l IH]; simpl; [lia |].
      rewrite Hx. simpl. rewrite andb_false_r. exact IH.
  - intros row Hin. apply filter_In in Hin. destruct Hin as [Hin Hl].
    apply in_map_iff in Hin. destruct Hin as (slot & <- & _).
    simpl in *. apply andb_true_iff in Hl. destruct Hl as [Hb Hk].
    split; [exact Hb |].
    destruct (bookingSlotId s) as [x |]; simpl in Hk; [| discriminate].
    apply String.eqb_eq in Hk. congruence.
  - intro Hb. clear Hnd. induction (slots s) as [| a l IH]; simpl; auto.
    rewrite Hb. simpl. exact IH.
Qed.

Lemma render_one_row_loading_witness :
  NoDup (map TimeSlot.id (slots (st (world awaitingRpc))))
  /\ length (loading_rows (render (st (world awaitingRpc)))) <= 1.
Proof.
  assert (Hnd : NoDup (map TimeSlot.id (slots (st (world awaitingRpc))))).
  { simpl. repeat constructor; simpl; intuition discriminate. }
  split; [exact Hnd |].
  exact (proj1 (@render_one_row_loading (st (world awaitingRpc)) Hnd)).
Defined.

(** X10.  After a successful load of at least one row the list is what is
    rendered: one row per row returned, in the order the backend returned
    them, with the id as key and the times as they came.  The component
    neither sorts nor filters what it is given. *)
Theorem loaded_slots_rendered_in_order :
  forall b mentorId now w r d ds,
    selectRows b (slotQuery mentorId now) = Fulfilled r ->
    rows_error r = None ->
    rows_data r = Some (d :: ds) ->
    let w' := fst (run b (loadAvailableSlots mentorId now) w) in
    exists rows,
      body (render (st w')) = SlotList rows
      /\ map key rows = map TimeSlot.id (d :: ds)
      /\ map startTime rows = map TimeSlot.start_time (d :: ds)
      /\ map endTime rows = map TimeSlot.end_time (d :: ds).
Proof.
  intros b mentorId now w r d ds Hq He Hd w'. subst w'.
  rewrite run_loadAvailableSlots.
  unfold loadAvailableSlots_try, await. simpl.
  change (selectRows b _) with (selectRows b (slotQuery mentorId now)).
  rewrite Hq. simpl. rewrite He, Hd. simpl.
  eexists. split; [reflexivity |].
  simpl. rewrite !map_map. simpl. auto.
Qed.

Lemma loaded_slots_rendered_in_order_witness :
  selectRows (slotsBackend (Fulfilled (mkRows (Some [s2; s1]) None)))
             (slotQuery "m1" "2025-01-01T00:00Z")
    = Fulfilled (mkRows (Some [s2; s1]) None)
  /\ exists rows,
       body (render
               (st (fst (run (slotsBackend
                                (Fulfilled (mkRows (Some [s2; s1]) None)))
                           (loadAvailableSlots "m1" "2025-01-01T00:00Z")
                           initialWorld))))
         = SlotList rows
       /\ map key rows = ["s2"; "s1"].
Proof.
  split; [reflexivity |].
  destruct (@loaded_slots_rendered_in_order
              (slotsBackend (Fulfilled (mkRows (Some [s2; s1]) None)))
              "m1" "2025-01-01T00:00Z" initialWorld
              (mkRows (Some [s2; s1]) None) s2 [s1]
              eq_refl eq_refl eq_refl) as (rows & Hb & Hk & _).
  exists rows. split; [exact Hb | exact Hk].
Defined.

(** ** More on the event loop *)

Lemma advance_keeps_loaded : forall p w,
  keeps_loaded p ->
  (loading (st w) = false -> loading (st (fst (advance p w))) = false)
  /\ match snd (advance p w) with
     | Some t => parked_keeps_loaded t
     | None => True
     end.
Proof.
  induction p as [r | e | a k IH | c k IH | c1 c2 k IH]; intros w Hk;
    simpl in *; auto.
  destruct a; simpl in *;
    try (match goal with
         | |- context [advance k ?w'] =>
             destruct (IH w' Hk) as [H1 H2]; split; [exact H1 | exact H2]
         end).
  destruct Hk as [-> Hk].
  destruct (IH (perform (SetLoading false) w) Hk) as [H1 H2].
  split; [intros _; apply H1; reflexivity | exact H2].
Qed.

Lemma loadAvailableSlots_keeps_loaded : forall mentorId now,
  keeps_loaded (loadAvailableSlots mentorId now).
Proof. intros mentorId now. settle_cases. Qed.

Lemma bookSlot_keeps_loaded : forall mentorId gigTitle cb slotId startTime,
  keeps_loaded (bookSlot mentorId gigTitle cb slotId startTime).
Proof. intros mentorId gigTitle cb slotId startTime. settle_cases. Qed.

Lemma receive_keeps_loaded : forall t a f,
  parked_keeps_loaded t ->
  receive t a = Some f ->
  match f with
  | Resumed p => keeps_loaded p
  | Held t' => parked_keeps_loaded t'
  end.
Proof.
  intros [c k | c1 c2 g1 g2 k] [x | second x] f Hk Hf; simpl in Hf;
    try discriminate.
  - destruct (deliver c x); simpl in Hf; [| discriminate].
    injection Hf as <-. apply Hk.
  - destruct second.
    + destruct g2; [discriminate |].
      destruct (deliver c2 x) as [[v2 | e] |]; [| | discriminate];
        injection Hf as <-; [destruct g1 |]; simpl; intros; apply Hk.
    + destruct g1; [discriminate |].
      destruct (deliver c1 x) as [[v1 | e] |]; [| | discriminate];
        injection Hf as <-; [destruct g2 |]; simpl; intros; apply Hk.
Qed.

Lemma spawn_keeps_loaded : forall o t,
  match t with Some t' => parked_keeps_loaded t' | None => True end ->
  Forall (fun x => parked_keeps_loaded (parked x)) (spawn o t).
Proof. intros o [t |] H; simpl; constructor; auto. Qed.

Section Loading.

Variable gigTitle : string.
Variable cb : settled unit.
Variable mayBook : State -> bool.

Lemma dispatch_keeps_loaded : forall i s s',
  Forall (fun x => parked_keeps_loaded (parked x)) (pool s) ->
  dispatch gigTitle cb mayBook i s = Some s' ->
  Forall (fun x => parked_keeps_loaded (parked x)) (pool s')
  /\ (loading (st (world s)) = false -> loading (st (world s')) = false).
Proof.
  intros i s s' Hp H.
  destruct (settles i) as [n |] eqn:Hi.
  - destruct (@dispatch_settlement gigTitle cb mayBook i n s s' Hi H)
      as (t & a & f & Hn & Hf & ->).
    pose proof (@pool_member _ (pool s) n t Hp Hn) as Ht. simpl in Ht.
    pose proof (@receive_keeps_loaded (parked t) a f Ht Hf) as Hr.
    destruct f as [p | t']; cbn [pool world].
    + destruct (@advance_keeps_loaded p (world s) Hr) as [H1 H2].
      split; [| exact H1].
      apply (@replaceAt_Forall _ (pool s) n t _ Hn Hp).
      apply spawn_keeps_loaded. exact H2.
    + split; [| auto].
      apply (@replaceAt_Forall _ (pool s) n t _ Hn Hp).
      apply spawn_keeps_loaded. exact Hr.
  - destruct i as [m now | slot | k xs | k second x]; try discriminate;
      rewrite ?dispatch_Render, ?dispatch_Click in H.
    + destruct (optEqb (mentor s) m); [discriminate |].
      destruct (@advance_keeps_loaded (loadAvailableSlots m now) (world s)
                  (@loadAvailableSlots_keeps_loaded m now)) as [H1 H2].
      destruct (advance (loadAvailableSlots m now) (world s)) as [w t].
      injection H as <-. cbn [pool world fst snd] in *.
      split; [| exact H1].
      apply Forall_app. split; [exact Hp |].
      apply spawn_keeps_loaded. exact H2.
    + destruct (mentor s) as [m |]; [| discriminate].
      destruct (shown (st (world s)) slot && mayBook (st (world s)));
        [| discriminate].
      destruct (@advance_keeps_loaded
                  (bookSlot m gigTitle cb (TimeSlot.id slot)
                            (TimeSlot.start_time slot)) (world s)
                  (@bookSlot_keeps_loaded m gigTitle cb (TimeSlot.id slot)
                                          (TimeSlot.start_time slot)))
        as [H1 H2].
      destruct (advance (bookSlot m gigTitle cb (TimeSlot.id slot)
                                  (TimeSlot.start_time slot)) (world s))
        as [w t].
      injection H as <-. cbn [pool world fst snd] in *.
      split; [| exact H1].
      apply Forall_app. split; [exact Hp |].
      apply spawn_keeps_loaded. exact H2.
Qed.

Lemma exec_keeps_loaded : forall inputs s s',
  Forall (fun x => parked_keeps_loaded (parked x)) (pool s) ->
  exec gigTitle cb mayBook inputs s = Some s' ->
  Forall (fun x => parked_keeps_loaded (parked x)) (pool s')
  /\ (loading (st (world s)) = false -> loading (st (world s')) = false).
Proof.
  induction inputs as [| i inputs IH]; intros s s' Hp H; simpl in H.
  - injection H as <-. auto.
  - destruct (dispatch gigTitle cb mayBook i s) as [s1 |] eqn:Hd;
      [| discriminate].
    destruct (@dispatch_keeps_loaded i s s1 Hp Hd) as [Hp1 Hl1].
    destruct (IH s1 s' Hp1 H) as [Hp' Hl'].
    split; [exact Hp' | auto].
Qed.

End Loading.

(** X11.  [loading] is never set back to [true].  Once the first load is
    over, it is [false] in every later state, whatever is clicked, rendered
    or settled: while a reload for another mentor is pending the component
    shows what it showed before, not "Loading available slots...". *)
Theorem loading_shown_only_once :
  forall gigTitle onBookingComplete mayBook before after s s',
    exec gigTitle onBookingComplete mayBook before unmounted = Some s ->
    loading (st (world s)) = false ->
    exec gigTitle onBookingComplete mayBook after s = Some s' ->
    loading (st (world s')) = false
    /\ body (render (st (world s')))
       <> Message "Loading available slots...".
Proof.
  intros gigTitle cb mayBook before after s s' Hb Hl Ha.
  destruct (@exec_keeps_loaded gigTitle cb mayBook before unmounted s
              (Forall_nil _) Hb) as [Hp _].
  destruct (@exec_keeps_loaded gigTitle cb mayBook after s s' Hp Ha)
    as [_ Hl'].
  specialize (Hl' Hl). split; [exact Hl' |].
  unfold render. cbn [body]. rewrite Hl'.
  destruct (Nat.eqb (length (slots (st (world s')))) 0); discriminate.
Qed.

Lemma loading_shown_only_once_witness :
  exec "Algebra" (Fulfilled tt) always reloading unmounted
    = Some afterFirstLoad
  /\ loading (st (world afterFirstLoad)) = false
  /\ exec "Algebra" (Fulfilled tt) always
          [Render "m2" "2025-01-01T00:05Z"] afterFirstLoad
     = Some reloadPending
  /\ length (pool reloadPending) = 1
  /\ loading (st (world reloadPending)) = false.
Proof.
  assert (Hb : exec "Algebra" (Fulfilled tt) always reloading unmounted
               = Some afterFirstLoad) by (vm_compute; reflexivity).
  assert (Ha : exec "Algebra" (Fulfilled tt) always
                    [Render "m2" "2025-01-01T00:05Z"]
                    afterFirstLoad = Some reloadPending)
    by (vm_compute; reflexivity).
  split; [exact Hb |]. split; [reflexivity |]. split; [exact Ha |].
  split; [reflexivity |].
  exact (proj1 (@loading_shown_only_once "Algebra" (Fulfilled tt) always
                  reloading [Render "m2" "2025-01-01T00:05Z"]
                  afterFirstLoad reloadPending Hb eq_refl Ha)).
Defined.

Lemma idle_no_row_loading : forall s,
  bookingInProgress s = false -> loading_rows (render s) = [].
Proof.
  intros s Hb. unfold loading_rows, render. cbn [body].
  destruct (loading s); [reflexivity |].
  destruct (Nat.eqb (length (slots s)) 0); [reflexivity |].
  induction (slots s) as [| a l IH]; simpl; auto.
  rewrite Hb. simpl. exact IH.
Qed.

(** X12.  Bookings may overlap, and the two booking cells are shared: the
    settlement that ends one invocation of [bookSlot] lowers
    [bookingInProgress] and empties [bookingSlotId] for all of them, so from
    then on no row shows the loading indicator, although the other
    invocations are still unresolved. *)
Theorem ended_booking_drops_indicator :
  forall gigTitle onBookingComplete mayBook inputs s i n t s',
    exec gigTitle onBookingComplete mayBook inputs unmounted = Some s ->
    settles i = Some n ->
    nth_error (pool s) n = Some t ->
    isBooking t = true ->
    dispatch gigTitle onBookingComplete mayBook i s = Some s' ->
    length (pool s') < length (pool s) ->
    bookings_in_flight s' + 1 = bookings_in_flight s
    /\ bookingInProgress (st (world s')) = false
    /\ bookingSlotId (st (world s')) = None
    /\ loading_rows (render (st (world s'))) = [].
Proof.
  intros gigTitle cb mayBook inputs s i n t s' Hr Hi Hn Hk H Hlen.
  destruct (@booking_end_clears gigTitle cb mayBook inputs s i n t s'
              Hr Hi Hn Hk H Hlen) as [Hf Hc].
  split; [| split; [exact Hf | split; [exact Hc |]]].
  - destruct (@dispatch_settlement gigTitle cb mayBook i n s s' Hi H)
      as (t0 & a & f & Hn0 & _ & ->).
    rewrite Hn in Hn0. injection Hn0 as <-.
    unfold bookings_in_flight.
    destruct f as [p | t']; cbn [pool] in *.
    + destruct (@replaceAt_parts (pool s) n t
                  (spawn (source t) (snd (advance p (world s)))) Hn)
        as (l1 & l2 & Hparts & Hnew).
      rewrite Hnew in *. rewrite Hparts in *.
      destruct (snd (advance p (world s))) as [t' |]; simpl in Hlen;
        rewrite !length_app in Hlen; simpl in Hlen; [lia |].
      rewrite !count_app. simpl. rewrite Hk. simpl. lia.
    + destruct (@replaceAt_parts (pool s) n t
                  (spawn (source t) (Some t')) Hn)
        as (l1 & l2 & Hparts & Hnew).
      rewrite Hnew in *. rewrite Hparts in *.
      simpl in Hlen. rewrite !length_app in Hlen. simpl in Hlen. lia.
  - apply idle_no_row_loading. exact Hf.
Qed.

Lemma ended_booking_drops_indicator_witness :
  exec "Algebra" (Fulfilled tt) always bookingAB unmounted
    = Some overlapping
  /\ dispatch "Algebra" (Fulfilled tt) always (Settle 0 timedOut)
              overlapping
     = Some firstEnded
  /\ length (pool firstEnded) < length (pool overlapping)
  /\ bookings_in_flight firstEnded + 1 = bookings_in_flight overlapping
  /\ bookingInProgress (st (world firstEnded)) = false.
Proof.
  assert (He : exec "Algebra" (Fulfilled tt) always bookingAB unmounted
               = Some overlapping)
    by (vm_compute; reflexivity).
  assert (Hd : dispatch "Algebra" (Fulfilled tt) always
                        (Settle 0 timedOut) overlapping
               = Some firstEnded) by (vm_compute; reflexivity).
  assert (Hlen : length (pool firstEnded) < length (pool overlapping))
    by (simpl; lia).
  split; [exact He |]. split; [exact Hd |]. split; [exact Hlen |].
  destruct (nth_error (pool overlapping) 0) as [t |] eqn:Hn;
    [| discriminate Hn].
  assert (Hk : isBooking t = true)
    by (simpl in Hn; injection Hn as <-; reflexivity).
  destruct (@ended_booking_drops_indicator "Algebra" (Fulfilled tt) always
              bookingAB overlapping (Settle 0 timedOut) 0 t firstEnded
              He eq_refl Hn Hk Hd Hlen)
    as (H1 & H2 & _).
  split; [exact H1 | exact H2].
Defined.

(** *** Answers that arrive late *)

Lemma load_resumed_ends : forall mentorId now t a f,
  Some t = first_park (loadAvailableSlots mentorId now) ->
  receive t a = Some f ->
  exists p, f = Resumed p /\ first_park p = None.
Proof.
  intros mentorId now t a f Ht Hf.
  unfold first_park in Ht. simpl in Ht. injection Ht as ->.
  destruct a as [x | second x]; simpl in Hf; [| discriminate].
  destruct x as [s | s | s | s | s]; simpl in Hf; try discriminate.
  injection Hf as <-. eexists. split; [reflexivity |].
  destruct s as [r | e]; simpl; [destruct (rows_error r) |]; reflexivity.
Qed.

Section Late.

Variable gigTitle : string.
Variable cb : settled unit.
Variable mayBook : State -> bool.

Lemma dispatch_fresh_load : forall i s s',
  Forall fresh_load (pool s) ->
  dispatch gigTitle cb mayBook i s = Some s' ->
  Forall fresh_load (pool s').
Proof.
  intros i s s' Hp H.
  destruct (settles i) as [n |] eqn:Hi.
  - destruct (@dispatch_settlement gigTitle cb mayBook i n s s' Hi H)
      as (t & a & f & Hn & Hf & ->).
    pose proof (@pool_member _ (pool s) n t Hp Hn) as Ht.
    assert (Hsp : Forall fresh_load
                    match f with
                    | Resumed p =>
                        spawn (source t) (snd (advance p (world s)))
                    | Held t' => spawn (source t) (Some t')
                    end).
    { destruct (source t) as [| slotId] eqn:Hs.
      - destruct (Ht Hs) as (m & now & Hfp).
        destruct (@load_resumed_ends m now (parked t) a f Hfp Hf)
          as (p & -> & Hend).
        rewrite first_park_anywhere, Hend. constructor.
      - destruct f as [p | t'];
          [destruct (snd (advance p (world s))) as [t' |] |]; simpl;
          repeat constructor; intro Hs'; discriminate Hs'. }
    destruct f as [p | t']; cbn [pool];
      apply (@replaceAt_Forall _ (pool s) n t _ Hn Hp); exact Hsp.
  - destruct i as [m now | slot | k xs | k second x]; try discriminate;
      rewrite ?dispatch_Render, ?dispatch_Click in H.
    + destruct (optEqb (mentor s) m); [discriminate |].
      pose proof (first_park_anywhere (loadAvailableSlots m now) (world s))
        as Hfp.
      destruct (advance (loadAvailableSlots m now) (world s)) as [w t].
      injection H as <-. cbn [pool snd] in *.
      apply Forall_app. split; [exact Hp |].
      destruct t as [t |]; simpl; constructor; [| constructor].
      intros _. exists m, now. exact Hfp.
    + destruct (mentor s) as [m |]; [| discriminate].
      destruct (shown (st (world s)) slot && mayBook (st (world s)));
        [| discriminate].
      destruct (advance (bookSlot m gigTitle cb (TimeSlot.id slot)
                                  (TimeSlot.start_time slot)) (world s))
        as [w t].
      injection H as <-. cbn [pool].
      apply Forall_app. split; [exact Hp |].
      destruct t as [t |]; simpl; constructor; [| constructor].
      intro Hs. discriminate Hs.
Qed.

Lemma exec_fresh_load : forall inputs s s',
  Forall fresh_load (pool s) ->
  exec gigTitle cb mayBook inputs s = Some s' ->
  Forall fresh_load (pool s').
Proof.
  induction inputs as [| i inputs IH]; intros s s' Hp H; simpl in H.
  - injection H as <-. exact Hp.
  - destruct (dispatch gigTitle cb mayBook i s) as [s1 |] eqn:Hd;
      [| discriminate].
    apply (IH s1 s' (@dispatch_fresh_load i s s1 Hp Hd) H).
Qed.

End Late.

(** X13.  A load is never cancelled and its answer is never checked against
    the mentor on display: whenever the answer to a pending slot query
    arrives without an error, its rows replace the slot list, also when the
    mentor has changed since the query was made, and the invocation ends
    there. *)
Theorem late_answer_applied :
  forall gigTitle onBookingComplete mayBook inputs s n t r,
    exec gigTitle onBookingComplete mayBook inputs unmounted = Some s ->
    nth_error (pool s) n = Some t ->
    source t = FromLoad ->
    rows_error r = None ->
    exists s',
      dispatch gigTitle onBookingComplete mayBook
               (Settle n [OfRows (Fulfilled r)]) s
        = Some s'
      /\ slots (st (world s'))
         = match rows_data r with Some d => d | None => [] end
      /\ mentor s' = mentor s
      /\ length (pool s') + 1 = length (pool s).
Proof.
  intros gigTitle cb mayBook inputs s n t r Hr Hn Hs He.
  assert (Hp : Forall fresh_load (pool s)).
  { apply (@exec_fresh_load gigTitle cb mayBook inputs unmounted s);
      [constructor | exact Hr]. }
  destruct (@replaceAt_parts _ _ _ (@nil task) Hn)
    as (l1 & l2 & Hparts & Hnew).
  pose proof (@pool_member _ (pool s) n t Hp Hn) as Ht.
  destruct (Ht Hs) as (m & now & Hfp).
  unfold first_park in Hfp. simpl in Hfp. injection Hfp as Hpk.
  rewrite dispatch_Settle, Hn, Hpk. simpl. rewrite He. simpl.
  rewrite Hnew.
  eexists. split; [reflexivity |]. simpl.
  split; [reflexivity |]. split; [reflexivity |].
  rewrite Hparts, !length_app. simpl. lia.
Qed.

Lemma late_answer_applied_witness :
  exec "Algebra" (Fulfilled tt) always lateAnswer unmounted
    = Some awaitingFirstAnswer
  /\ mentor awaitingFirstAnswer = Some "m2"
  /\ slots (st (world awaitingFirstAnswer)) = [s2]
  /\ exists s',
       dispatch "Algebra" (Fulfilled tt) always
         (Settle 0 [OfRows (Fulfilled (mkRows (Some [s1]) None))])
         awaitingFirstAnswer = Some s'
       /\ slots (st (world s')) = [s1]
       /\ mentor s' = Some "m2".
Proof.
  assert (He : exec "Algebra" (Fulfilled tt) always lateAnswer unmounted
               = Some awaitingFirstAnswer) by (vm_compute; reflexivity).
  split; [exact He |]. split; [reflexivity |]. split; [reflexivity |].
  destruct (nth_error (pool awaitingFirstAnswer) 0) as [t |] eqn:Hn;
    [| discriminate Hn].
  assert (Hs : source t = FromLoad)
    by (simpl in Hn; injection Hn as <-; reflexivity).
  destruct (@late_answer_applied "Algebra" (Fulfilled tt) always lateAnswer
              awaitingFirstAnswer 0 t (mkRows (Some [s1]) None)
              He Hn Hs eq_refl) as (s' & Hd & Hsl & Hm & _).
  exists s'. split; [exact Hd |]. split; [exact Hsl | exact Hm].
Defined.

(** ** What the [catch] block cannot report, and what it reports too *)



(** X15.  [onBookingComplete] is called inside the [try] block.  When it
    throws an error, the booking has been made and the callback has been
    invoked, and yet the [catch] block reports a failure: the error's
    message, or the fallback when it has none, is shown and the error is
    logged. *)
Theorem bookSlot_callback_error_reported :
  forall b mentorId gigTitle slotId startTime user sp mp er (e : JsError) w,
    prepared b mentorId slotId user sp mp ->
    sendBookingEmails b (confirmation gigTitle startTime sp mp)
      = Fulfilled er ->
    let w' := fst (run b (bookSlot mentorId gigTitle (Rejected e) slotId
                                   startTime) w) in
    completions w' = completions w + 1
    /\ (message e <> "" ->
        error (st w') = message e
        /\ banner (render (st w')) = Some (message e))
    /\ (message e = "" ->
        error (st w') = "Failed to book the session. Please try again."
        /\ banner (render (st w'))
           = Some "Failed to book the session. Please try again.")
    /\ console w' =
         console (warned er w) ++ [LogError "Booking error:" e]
    /\ bookingInProgress (st w') = false
    /\ bookingSlotId (st w') = None
    /\ issued_rpcs (history w') =
         issued_rpcs (history w)
         ++ [("book_time_slot",
              mkBookArgs slotId (User.id user) mentorId)].
Proof.
  intros b mentorId gigTitle slotId startTime user sp mp er e w Hp He w'.
  subst w'. rewrite run_bookSlot.
  rewrite (@bookSlot_try_mailed b mentorId gigTitle (Rejected e) slotId
             startTime user sp mp er (entered slotId w) Hp He).
  unfold render, warned.
  destruct (success er); simpl; rewrite !issued_rpcs_app; simpl;
    rewrite ?app_nil_r, ?Nat.add_0_r; unfold str_or;
    (repeat split; auto;
     [ apply String.eqb_neq in H; rewrite H; reflexivity
     | apply String.eqb_neq in H; rewrite !H; reflexivity
     | rewrite H; reflexivity
     | rewrite H; reflexivity ]).
Qed.

Lemma bookSlot_callback_error_reported_witness :
  prepared (backend true) "m1" "s1" student studentProfile mentorProfile
  /\ completions
       (fst (run (backend true)
               (bookSlot "m1" "Algebra" (Rejected (Error "refresh failed"))
                         "s1" "2025-01-10T10:00Z")
               initialWorld)) = 0 + 1
  /\ banner
       (render
          (st (fst (run (backend true)
                      (bookSlot "m1" "Algebra"
                                (Rejected (Error "refresh failed"))
                                "s1" "2025-01-10T10:00Z")
                      initialWorld))))
     = Some "refresh failed"
  /\ banner
       (render
          (st (fst (run (backend true)
                      (bookSlot "m1" "Algebra" (Rejected (Error ""))
                                "s1" "2025-01-10T10:00Z")
                      initialWorld))))
     = Some "Failed to book the session. Please try again.".
Proof.
  assert (Hp : prepared (backend true) "m1" "s1" student studentProfile
                        mentorProfile)
    by (econstructor; reflexivity).
  split; [exact Hp |].
  destruct (@bookSlot_callback_error_reported (backend true) "m1" "Algebra"
              "s1" "2025-01-10T10:00Z" student studentProfile mentorProfile
              (mkEmailResult true JUndefined) (Error "refresh failed")
              initialWorld Hp eq_refl)
    as (H1 & H2 & _).
  split; [exact H1 |]. split; [apply H2; discriminate |].
  destruct (@bookSlot_callback_error_reported (backend true) "m1" "Algebra"
              "s1" "2025-01-10T10:00Z" student studentProfile mentorProfile
              (mkEmailResult true JUndefined) (Error "")
              initialWorld Hp eq_refl)
    as (_ & _ & H3 & _).
  apply H3. reflexivity.
Defined.
